(** * Todo manager: a shallow embedding of [todo_manager.py]

    The development models the class [TodoManager] of [src/todo_manager.py]
    and the command dispatch of its [main], and states the task-store
    properties over that model.

    Modelling conventions.
    - A todo is a Python dict with string keys: a [gmap string value].
    - Python values are restricted to the three kinds the program stores
      ([None], [int], [str]); on them Python's [==] is structural equality.
    - Text is ASCII: [str.lower] is modelled on the letters [A]-[Z], and the
      property of searching is stated for ASCII text.
    - The data file is text that decodes to a list of dicts, or text that is
      not JSON; other files are outside the model.
    - The methods run in a state-and-exception monad over the manager's list,
      the content of the data file and the trace of effects (lines printed,
      files written).  What is printed is kept as structured lines carrying
      the values interpolated in the f-strings, not as rendered text.
    - [datetime.now().isoformat()] is an input [now] of the two methods that
      read the clock. *)

From Stdlib Require Import ZArith String Ascii List Lia Bool SpecFloat.
From stdpp Require Import base gmap strings list pretty.

Open Scope string_scope.
Open Scope list_scope.
Open Scope Z_scope.

(** ** Python values and dicts *)

Inductive value : Type :=
| VNone
| VInt (n : Z)
| VStr (s : string).

#[global] Instance value_eq_dec : EqDecision value.
Proof. solve_decision. Defined.

(** Python's [a == b] on these values. *)
Definition py_eq (a b : value) : bool := bool_decide (a = b).

(** Python truthiness: [None], [0] and [""] are false. *)
Definition truthy (v : value) : bool :=
  match v with
  | VNone => false
  | VInt n => negb (n =? 0)
  | VStr s => negb (String.eqb s "")
  end.

(** An optional string argument ([None] or a [str]) as a value. *)
Definition of_opt (o : option string) : value :=
  match o with
  | Some s => VStr s
  | None => VNone
  end.

Abbreviation todo := (gmap string value).

(** ** Exceptions and results *)

Inductive exn : Type :=
| KeyError (key : value)
| AttributeError
| TypeError
| ZeroDivisionError.

Inductive result (A : Type) : Type :=
| Ok (a : A)
| Raise (e : exn).

Arguments Ok {A} a.
Arguments Raise {A} e.

Definition rbind {A B : Type} (r : result A) (k : A -> result B) : result B :=
  match r with
  | Ok a => k a
  | Raise e => Raise e
  end.

Notation "'let?' x ':=' r 'in' k" := (rbind r (fun x => k))
  (at level 10, x name, r at level 100, k at level 200).
Notation "'do?' r 'in' k" := (rbind r (fun _ => k))
  (at level 10, r at level 100, k at level 200).

(** [todo[key]] *)
Definition getitem (t : todo) (key : string) : result value :=
  match t !! key with
  | Some v => Ok v
  | None => Raise (KeyError (VStr key))
  end.

(** A method of [str] called on a value: [AttributeError] on [None] and [int]. *)
Definition as_str (v : value) : result string :=
  match v with
  | VStr s => Ok s
  | _ => Raise AttributeError
  end.

(** [v[:10]]: a slice, [TypeError] on [None] and [int]. *)
Definition slice10 (v : value) : result string :=
  match v with
  | VStr s => Ok (substring 0 10 s)
  | _ => Raise TypeError
  end.

(** ** The world a [TodoManager] runs in *)

(** The data file, as [json.load] reads it.  Two kinds of file are modelled:
    text that decodes to a list of dicts with values [None], [int] or [str]
    (what [json.dump] writes, and every other such list, whatever keys its
    dicts have), and text that is not JSON, on which the decoder raises
    [JSONDecodeError].  Outside the model are the files whose bytes are not
    text in the encoding of the platform (reading them raises
    [UnicodeDecodeError], which [load_todos] does not catch) and JSON of
    another shape (which [load_todos] returns as it is). *)
Inductive file_content : Type :=
| Document (ts : list todo)
| Malformed (raw : string).

(** What the program prints, one constructor per [print] statement (the lines
    printed for one todo by a display loop are one constructor). *)
Inductive line : Type :=
| OutErrorReading
| OutAdded (title : string)
| OutNoTodos
| OutListHeader (n : nat)
| OutListItem (t : todo)
| OutUpdated (todo_id : Z)
| OutNotFound (todo_id : Z)
| OutDeleted (title : value)
| OutDetails (t : todo)
| OutSearchHeader (query : string) (n : nat)
| OutSearchItem (t : todo)
| OutNoMatch (query : string)
| OutStatsHeader
| OutTotal (n : nat)
| OutCompleted (n : nat)
| OutPending (n : nat)
| OutCompletionRate (percent : string)
| OutNoRate
| OutPriorityHeader
| OutPriorityCount (priority : string) (n : nat)
| OutSpecifyField.

Inductive effect : Type :=
| Stdout (l : line)
| FileWrite (ts : list todo).

Record world : Type := World {
  todos : list todo;             (* self.todos *)
  file : option file_content;    (* the file at self.data_file, if it exists *)
  trace : list effect            (* effects so far, oldest first *)
}.

(** ** The monad of the methods *)

Definition M (A : Type) : Type := world -> result A * world.

Definition ret {A : Type} (a : A) : M A := fun w => (Ok a, w).

Definition bind {A B : Type} (c : M A) (k : A -> M B) : M B :=
  fun w =>
    match c w with
    | (Ok a, w') => k a w'
    | (Raise e, w') => (Raise e, w')
    end.

Notation "x <- c ;; k" := (bind c (fun x => k))
  (at level 100, c at next level, right associativity).
Notation "c ;; k" := (bind c (fun _ => k))
  (at level 100, right associativity).

Definition lift {A : Type} (r : result A) : M A := fun w => (r, w).

Definition get_todos : M (list todo) := fun w => (Ok (todos w), w).

Definition set_todos (ts : list todo) : M unit :=
  fun w => (Ok tt, World ts (file w) (trace w)).

Definition print (l : line) : M unit :=
  fun w => (Ok tt, World (todos w) (file w) (trace w ++ [Stdout l])).

(** [for x in xs: body(x)] *)
Fixpoint for_each {A : Type} (body : A -> M unit) (xs : list A) : M unit :=
  match xs with
  | [] => ret tt
  | x :: xs' => body x;; for_each body xs'
  end.

(** The final state and the outcome of a run. *)
Definition exec {A : Type} (c : M A) (w : world) : world := snd (c w).
Definition outcome {A : Type} (c : M A) (w : world) : result A := fst (c w).

(** ** [class TodoManager] *)

(** [load_todos]: what the file decodes to, as it is; [[]] after the message
    of the [except json.JSONDecodeError] clause when the text is not JSON;
    [[]] when there is no file. *)
Definition load_todos : M (list todo) :=
  fun w =>
    match file w with
    | Some (Document ts) => ret ts w
    | Some (Malformed _) => (print OutErrorReading;; ret []) w
    | None => ret [] w
    end.

(** [__init__] *)
Definition init : M unit :=
  ts <- load_todos;; set_todos ts.

(** [save_todos]: the whole list overwrites the file. *)
Definition save_todos : M unit :=
  fun w => (Ok tt, World (todos w) (Some (Document (todos w)))
                         (trace w ++ [FileWrite (todos w)])).

Definition new_todo (id : Z) (title description priority : string)
    (now : string) (due_date : option string) : todo :=
  <["id" := VInt id]>
  (<["title" := VStr title]>
  (<["description" := VStr description]>
  (<["priority" := VStr priority]>
  (<["status" := VStr "pending"]>
  (<["created_at" := VStr now]>
  (<["due_date" := of_opt due_date]>
  (<["completed_at" := VNone]> ∅))))))).

(** [add_todo] *)
Definition add_todo (now : string) (title description priority : string)
    (due_date : option string) : M unit :=
  ts <- get_todos;;
  let todo := new_todo (Z.of_nat (length ts) + 1) title description priority
                       now due_date in
  set_todos (ts ++ [todo]);;
  save_todos;;
  print (OutAdded title).

(** The index and the dict of the first todo with [todo["id"] == todo_id]:
    the search done by the loops
    [for todo in self.todos: if todo["id"] == todo_id: ...; return]. *)
Fixpoint find_todo (todo_id : Z) (ts : list todo) (i : nat)
    : result (option (nat * todo)) :=
  match ts with
  | [] => Ok None
  | t :: rest =>
      let? v := getitem t "id" in
      if py_eq v (VInt todo_id) then Ok (Some (i, t))
      else find_todo todo_id rest (S i)
  end.

(** One round of the loop over [kwargs.items()] in [update_todo]. *)
Definition apply_kwarg (now : string) (t : todo) (kv : string * value) : todo :=
  let '(key, v) := kv in
  if decide (is_Some (t !! key)) then
    let t' := <[key := v]> t in
    if String.eqb key "status" && py_eq v (VStr "completed")
    then <["completed_at" := VStr now]> t'
    else t'
  else t.

Definition apply_kwargs (now : string) (kwargs : list (string * value))
    (t : todo) : todo :=
  fold_left (apply_kwarg now) kwargs t.

(** [update_todo]; [kwargs] in the order of [kwargs.items()]. *)
Definition update_todo (now : string) (todo_id : Z)
    (kwargs : list (string * value)) : M unit :=
  ts <- get_todos;;
  found <- lift (find_todo todo_id ts 0);;
  match found with
  | Some (i, t) =>
      set_todos (<[i := apply_kwargs now kwargs t]> ts);;
      save_todos;;
      print (OutUpdated todo_id)
  | None => print (OutNotFound todo_id)
  end.

(** [delete_todo] *)
Definition delete_todo (todo_id : Z) : M unit :=
  ts <- get_todos;;
  found <- lift (find_todo todo_id ts 0);;
  match found with
  | Some (i, deleted_todo) =>
      set_todos (delete i ts);;
      save_todos;;
      title <- lift (getitem deleted_todo "title");;
      print (OutDeleted title)
  | None => print (OutNotFound todo_id)
  end.

(** [complete_todo] *)
Definition complete_todo (now : string) (todo_id : Z) : M unit :=
  update_todo now todo_id [("status", VStr "completed")].

(** The list comprehension [[todo for todo in ts if todo[key] == v]]. *)
Fixpoint filter_by (key : string) (v : value) (ts : list todo)
    : result (list todo) :=
  match ts with
  | [] => Ok []
  | t :: rest =>
      let? x := getitem t key in
      let? kept := filter_by key v rest in
      Ok (if py_eq x v then t :: kept else kept)
  end.

(** The dict literal [{"high": .., "medium": .., "low": ..}[p]] of [list_todos]. *)
Definition priority_icon (p : value) : result unit :=
  if py_eq p (VStr "high") || py_eq p (VStr "medium") || py_eq p (VStr "low")
  then Ok tt
  else Raise (KeyError p).

(** The accesses made while one todo is printed by [list_todos]. *)
Definition list_item (t : todo) : result line :=
  let? _ := getitem t "status" in
  let? p := getitem t "priority" in
  do? priority_icon p in
  let? _ := getitem t "id" in
  let? _ := getitem t "title" in
  let? _ := getitem t "description" in
  let? st := getitem t "status" in
  do? as_str st in
  let? created := getitem t "created_at" in
  do? slice10 created in
  let? _ := getitem t "due_date" in
  let? done_at := getitem t "completed_at" in
  do? (if truthy done_at then slice10 done_at else Ok "") in
  Ok (OutListItem t).

(** [list_todos]; an absent filter is [None]. *)
Definition list_todos (status priority : option string) : M unit :=
  filtered_todos <- get_todos;;
  filtered_todos <-
    (if truthy (of_opt status)
     then lift (filter_by "status" (of_opt status) filtered_todos)
     else ret filtered_todos);;
  filtered_todos <-
    (if truthy (of_opt priority)
     then lift (filter_by "priority" (of_opt priority) filtered_todos)
     else ret filtered_todos);;
  match filtered_todos with
  | [] => print OutNoTodos
  | _ =>
      print (OutListHeader (length filtered_todos));;
      for_each (fun t => l <- lift (list_item t);; print l) filtered_todos
  end.

(** The accesses made while [show_todo] prints the todo it found. *)
Definition details (t : todo) : result line :=
  let? _ := getitem t "id" in
  let? _ := getitem t "title" in
  let? _ := getitem t "description" in
  let? st := getitem t "status" in
  do? as_str st in
  let? p := getitem t "priority" in
  do? as_str p in
  let? _ := getitem t "created_at" in
  let? _ := getitem t "due_date" in
  let? _ := getitem t "completed_at" in
  Ok (OutDetails t).

(** [show_todo] *)
Definition show_todo (todo_id : Z) : M unit :=
  ts <- get_todos;;
  found <- lift (find_todo todo_id ts 0);;
  match found with
  | Some (_, t) => l <- lift (details t);; print l
  | None => print (OutNotFound todo_id)
  end.

(** ** Text: [str.lower] and the [in] operator *)

Definition lower_ascii (c : ascii) : ascii :=
  let n := nat_of_ascii c in
  if ((65 <=? n) && (n <=? 90))%nat then ascii_of_nat (n + 32) else c.

Fixpoint lower (s : string) : string :=
  match s with
  | EmptyString => EmptyString
  | String c s' => String (lower_ascii c) (lower s')
  end.

Fixpoint starts_with (p s : string) : bool :=
  match p, s with
  | EmptyString, _ => true
  | String a p', String b s' => Ascii.eqb a b && starts_with p' s'
  | String _ _, EmptyString => false
  end.

(** [q in s] on strings. *)
Fixpoint contains (q s : string) : bool :=
  starts_with q s ||
  match s with
  | EmptyString => false
  | String _ s' => contains q s'
  end.

(** The condition of the loop of [search_todos]; [or] skips the description
    when the title matches. *)
Definition search_match (query_lower : string) (t : todo) : result bool :=
  let? title := getitem t "title" in
  let? title := as_str title in
  if contains query_lower (lower title) then Ok true
  else
    let? description := getitem t "description" in
    let? description := as_str description in
    Ok (contains query_lower (lower description)).

Fixpoint search_loop (query_lower : string) (ts : list todo)
    : result (list todo) :=
  match ts with
  | [] => Ok []
  | t :: rest =>
      let? hit := search_match query_lower t in
      let? matching := search_loop query_lower rest in
      Ok (if hit then t :: matching else matching)
  end.

(** The accesses made while one match is printed by [search_todos]. *)
Definition search_item (t : todo) : result line :=
  let? _ := getitem t "status" in
  let? _ := getitem t "id" in
  let? _ := getitem t "title" in
  Ok (OutSearchItem t).

(** [search_todos] *)
Definition search_todos (query : string) : M unit :=
  ts <- get_todos;;
  matching_todos <- lift (search_loop (lower query) ts);;
  match matching_todos with
  | [] => print (OutNoMatch query)
  | _ =>
      print (OutSearchHeader query (length matching_todos));;
      for_each (fun t => l <- lift (search_item t);; print l) matching_todos
  end.

(** ** Floating point: [completed / total * 100] and the format [.1f] *)

(** IEEE 754 binary64, by the Standard Library's executable specification. *)
Definition prec : Z := 53.
Definition emax : Z := 1024.

(** [float(n)], round to nearest even. *)
Definition float_of_int (n : Z) : spec_float :=
  binary_normalize prec emax n 0 false.

(** [a / b] on ints: the quotient rounded to the nearest float (for operands
    below [2^53], as list lengths are, the conversions are exact), or
    [ZeroDivisionError]. *)
Definition truediv (a b : Z) : result spec_float :=
  if b =? 0 then Raise ZeroDivisionError
  else Ok (SFdiv prec emax (float_of_int a) (float_of_int b)).

(** [x * n] for a float [x] and an int [n]. *)
Definition fmul_int (x : spec_float) (n : Z) : spec_float :=
  SFmul prec emax x (float_of_int n).

(** [m * 2^e * 10] rounded to the nearest integer, ties to even: the number
    of tenths the format [.1f] prints for the float [m * 2^e]. *)
Definition round_tenths (m : positive) (e : Z) : Z :=
  if 0 <=? e then Z.pos m * 2 ^ e * 10
  else
    let num := Z.pos m * 10 in
    let den := 2 ^ (- e) in
    let q := num / den in
    let r := num mod den in
    if 2 * r <? den then q
    else if den <? 2 * r then q + 1
    else if Z.even q then q else q + 1.

Definition sign_text (s : bool) : string := if s then "-" else "".

(** The decimal text of a number of tenths: [333] is ["33.3"]. *)
Definition tenths_text (t : Z) : string :=
  pretty (t / 10) +:+ "." +:+ pretty (t mod 10).

(** [f"{x:.1f}"] *)
Definition format_1f (x : spec_float) : string :=
  match x with
  | S754_zero s => sign_text s +:+ tenths_text 0
  | S754_infinity s => sign_text s +:+ "inf"
  | S754_nan => "nan"
  | S754_finite s m e => sign_text s +:+ tenths_text (round_tenths m e)
  end.

(** [f"{(completed/total*100):.1f}"] *)
Definition completion_rate (completed total : nat) : result string :=
  let? q := truediv (Z.of_nat completed) (Z.of_nat total) in
  Ok (format_1f (fmul_int q 100)).

(** The argument of the fifth [print] of [get_statistics]:
    [f"Completion rate: {(completed/total*100):.1f}%" if total > 0 else "No todos"]. *)
Definition rate_line (completed total : nat) : result line :=
  if (0 <? total)%nat then
    let? rate := completion_rate completed total in
    Ok (OutCompletionRate rate)
  else Ok OutNoRate.

(** [priorities[priority] = priorities.get(priority, 0) + 1] on a dict kept
    in insertion order. *)
Fixpoint count_priority (priority : value) (priorities : list (value * nat))
    : list (value * nat) :=
  match priorities with
  | [] => [(priority, 1%nat)]
  | (p, n) :: rest =>
      if py_eq p priority then (p, S n) :: rest
      else (p, n) :: count_priority priority rest
  end.

Fixpoint priority_breakdown (ts : list todo) (priorities : list (value * nat))
    : result (list (value * nat)) :=
  match ts with
  | [] => Ok priorities
  | t :: rest =>
      let? priority := getitem t "priority" in
      priority_breakdown rest (count_priority priority priorities)
  end.

(** One round of [for priority, count in priorities.items()]: the line
    [f"  {priority.title()}: {count}"]. *)
Definition priority_line (entry : value * nat) : result line :=
  let '(priority, count) := entry in
  let? p := as_str priority in
  Ok (OutPriorityCount p count).

(** [get_statistics] *)
Definition get_statistics : M unit :=
  ts <- get_todos;;
  let total := length ts in
  done <- lift (filter_by "status" (VStr "completed") ts);;
  let completed := length done in
  let pending := (total - completed)%nat in
  print OutStatsHeader;;
  print (OutTotal total);;
  print (OutCompleted completed);;
  print (OutPending pending);;
  rate <- lift (rate_line completed total);;
  print rate;;
  priorities <- lift (priority_breakdown ts []);;
  print OutPriorityHeader;;
  for_each (fun entry => l <- lift (priority_line entry);; print l) priorities.

(** ** [main]: the commands and their dispatch *)

(** The values [argparse] lets through ([choices=...]). *)
Inductive priority_choice : Type := Low | Medium | High.
Inductive status_choice : Type := Pending | Completed.

Definition priority_name (p : priority_choice) : string :=
  match p with
  | Low => "low"
  | Medium => "medium"
  | High => "high"
  end.

Definition status_name (s : status_choice) : string :=
  match s with
  | Pending => "pending"
  | Completed => "completed"
  end.

(** The parsed command line: one constructor per subcommand, an option that
    was not given being [None] (or its declared default). *)
Inductive command : Type :=
| CmdAdd (title description : string) (priority : priority_choice)
         (due_date : option string)
| CmdList (status : option status_choice) (priority : option priority_choice)
| CmdUpdate (id : Z) (title description : option string)
            (priority : option priority_choice) (due_date : option string)
| CmdDelete (id : Z)
| CmdComplete (id : Z)
| CmdShow (id : Z)
| CmdSearch (query : string)
| CmdStats.

(** [if args.x: update_data[key] = args.x] *)
Definition update_entry (key : string) (arg : option string)
    : list (string * value) :=
  if truthy (of_opt arg) then [(key, of_opt arg)] else [].

(** The [if]/[elif] chain of [main]. *)
Definition dispatch (now : string) (c : command) : M unit :=
  match c with
  | CmdAdd title description priority due_date =>
      add_todo now title description (priority_name priority) due_date
  | CmdList status priority =>
      list_todos (status_name <$> status) (priority_name <$> priority)
  | CmdUpdate id title description priority due_date =>
      let update_data :=
        (update_entry "title" title ++
         update_entry "description" description ++
         update_entry "priority" (priority_name <$> priority) ++
         update_entry "due_date" due_date)%list in
      match update_data with
      | [] => print OutSpecifyField
      | _ => update_todo now id update_data
      end
  | CmdDelete id => delete_todo id
  | CmdComplete id => complete_todo now id
  | CmdShow id => show_todo id
  | CmdSearch query => search_todos query
  | CmdStats => get_statistics
  end.

(** One run of the program: [todo_manager = TodoManager()], then the command. *)
Definition main (now : string) (c : command) : M unit :=
  init;; dispatch now c.

(** The world before the first run: no data file, nothing printed. *)
Definition first_run : world := World [] None [].

(** The world after a sequence of runs, each with the clock value it read. *)
Definition run_all (runs : list (string * command)) (w : world) : world :=
  fold_left (fun w '(now, c) => exec (main now c) w) runs w.

(** A repository state is reachable when some sequence of runs of the program,
    started with no data file, leads to it. *)
Definition reachable (w : world) : Prop :=
  exists runs, w = run_all runs first_run.

(** * Vocabulary of the properties *)

(** ** Ids *)

(** [t] holds the id [todo_id]. *)
Definition has_id (todo_id : Z) (t : todo) : Prop :=
  t !! "id" = Some (VInt todo_id).

(** [t] has an id, and it is not [todo_id]. *)
Definition other_id (todo_id : Z) (t : todo) : Prop :=
  exists v, t !! "id" = Some v /\ v <> VInt todo_id.

(** The todo at index [k] has an id that no other stored todo has. *)
Definition id_unique_at (k : nat) (ts : list todo) : Prop :=
  forall j t u,
    ts !! k = Some t -> ts !! j = Some u -> j <> k -> u !! "id" <> t !! "id".

(** The todos are numbered 1, 2, ... in the order of the list. *)
Definition numbered (ts : list todo) : Prop :=
  forall k t, ts !! k = Some t -> t !! "id" = Some (VInt (Z.of_nat k + 1)).

(** The result of a call that only prints the not-found line: the list and
    the file are untouched, and nothing is written. *)
Definition not_found (todo_id : Z) (w : world) : result unit * world :=
  (Ok tt, World (todos w) (file w) (trace w ++ [Stdout (OutNotFound todo_id)])).

(** ** Well-formed tasks *)

Definition is_str (v : value) : bool :=
  match v with VStr _ => true | _ => false end.
Definition is_int (v : value) : bool :=
  match v with VInt _ => true | _ => false end.
Definition is_opt_str (v : value) : bool :=
  match v with VInt _ => false | _ => true end.

(** The values a field of a task may hold (section 3 of the specification). *)
Definition admissible (key : string) (v : value) : bool :=
  if String.eqb key "id" then is_int v
  else if String.eqb key "title" then is_str v
  else if String.eqb key "description" then is_str v
  else if String.eqb key "priority" then
    py_eq v (VStr "low") || py_eq v (VStr "medium") || py_eq v (VStr "high")
  else if String.eqb key "status" then
    py_eq v (VStr "pending") || py_eq v (VStr "completed")
  else if String.eqb key "created_at" then is_str v
  else if String.eqb key "due_date" then is_opt_str v
  else if String.eqb key "completed_at" then is_opt_str v
  else true.

(** The keys of the dict that [add_todo] builds. *)
Definition fields : list string :=
  ["id"; "title"; "description"; "priority"; "status"; "created_at";
   "due_date"; "completed_at"].

Definition field_ok (t : todo) (key : string) : bool :=
  match t !! key with
  | Some v => admissible key v
  | None => false
  end.

(** A dict is a task when it has every field, with an admissible value. *)
Definition is_task (t : todo) : bool := forallb (field_ok t) fields.

Definition tasks (ts : list todo) : Prop := Forall (fun t => is_task t = true) ts.

(** ** Effects of a computation *)

(** The computation leaves the list and the file alone. *)
Definition read_only {A : Type} (c : M A) : Prop :=
  forall w, todos (snd (c w)) = todos w /\ file (snd (c w)) = file w.

(** Every exception that the computation raises satisfies [P]. *)
Definition raises_only {A : Type} (P : exn -> Prop) (c : M A) : Prop :=
  forall w e, fst (c w) = Raise e -> P e.

(** ** Runs *)

(** The list in memory is the one the data file holds. *)
Definition synced (w : world) : Prop :=
  match file w with
  | None => todos w = []
  | Some (Document ts) => todos w = ts
  | Some (Malformed _) => False
  end.

Definition is_delete (c : command) : bool :=
  match c with
  | CmdDelete _ => true
  | _ => false
  end.

(** How one run with the command [c] changes the list. *)
Inductive changes (now : string) : command -> list todo -> list todo -> Prop :=
| changes_nothing c ts : changes now c ts ts
| changes_add title description priority due_date ts :
    changes now (CmdAdd title description priority due_date) ts
      (ts ++ [new_todo (Z.of_nat (length ts) + 1) title description
                       (priority_name priority) now due_date])
| changes_edit c i t kwargs ts :
    is_delete c = false ->
    ts !! i = Some t ->
    Forall (fun kv => admissible kv.1 kv.2 = true) kwargs ->
    ~ In "id" (map fst kwargs) ->
    changes now c ts (<[i := apply_kwargs now kwargs t]> ts)
| changes_delete id i ts : changes now (CmdDelete id) ts (delete i ts).

(** ** Searching and listing *)

(** The letters, each in its upper and in its lower case. *)
Definition letter_cases : list (ascii * ascii) :=
  combine (list_ascii_of_string "ABCDEFGHIJKLMNOPQRSTUVWXYZ")
          (list_ascii_of_string "abcdefghijklmnopqrstuvwxyz").

(** Two characters are equal up to case: they are the same character, or
    the two cases of one letter. *)
Definition same_letter (a b : ascii) : Prop :=
  a = b \/ In (a, b) letter_cases \/ In (b, a) letter_cases.

(** Two strings are equal up to case: they have the same length and their
    characters are equal up to case, position by position. *)
Inductive equal_ignoring_case : string -> string -> Prop :=
| equal_case_nil : equal_ignoring_case "" ""
| equal_case_cons a b s r :
    same_letter a b -> equal_ignoring_case s r ->
    equal_ignoring_case (String a s) (String b r).

(** [s] contains [q] as a case-insensitive substring: some substring of [s]
    equals [q] up to case. *)
Definition ci_substring (q s : string) : Prop :=
  exists pre mid post, s = pre +:+ mid +:+ post /\ equal_ignoring_case mid q.



(** Every character, and [same_letter] as a test. *)
Definition all_ascii : list ascii := map ascii_of_nat (seq 0 256).

Definition same_letterb (a b : ascii) : bool :=
  Ascii.eqb a b ||
  existsb (fun p : ascii * ascii =>
             Ascii.eqb a p.1 && Ascii.eqb b p.2 ||
             Ascii.eqb b p.1 && Ascii.eqb a p.2) letter_cases.

(** The todo matches the query: its title or its description contains the
    query as a case-insensitive substring. *)
Definition matches_query (query : string) (t : todo) : Prop :=
  exists title description,
    t !! "title" = Some (VStr title) /\
    t !! "description" = Some (VStr description) /\
    (ci_substring query title \/ ci_substring query description).

(** What [search_todos] prints for the list of matches. *)
Definition search_lines (query : string) (matching : list todo) : list line :=
  match matching with
  | [] => [OutNoMatch query]
  | _ => OutSearchHeader query (length matching) :: map OutSearchItem matching
  end.

(** The filter on one field: absent, or the value the field must have. *)
Definition field_is (key : string) (want : option string) (t : todo) : Prop :=
  match want with
  | None => True
  | Some s => t !! key = Some (VStr s)
  end.

(** The todo passes all the filters that were supplied. *)
Definition passes (status : option status_choice)
    (priority : option priority_choice) (t : todo) : Prop :=
  field_is "status" (status_name <$> status) t /\
  field_is "priority" (priority_name <$> priority) t.

(** What [list_todos] prints for the filtered list. *)
Definition list_lines (shown : list todo) : list line :=
  match shown with
  | [] => [OutNoTodos]
  | _ => OutListHeader (length shown) :: map OutListItem shown
  end.

(** ** Statistics *)

Definition is_completed (t : todo) : Prop :=
  t !! "status" = Some (VStr "completed").

(** The integer nearest to [num / den], the even one of two. *)
Definition round_half_even (num den : Z) : Z :=
  let q := num / den in
  let r := num mod den in
  if 2 * r <? den then q
  else if den <? 2 * r then q + 1
  else if Z.even q then q else q + 1.

(** The exact rate in tenths of a percent, [1000 * completed / total],
    rounded to a whole number of tenths: halves up, and halves to even. *)
Definition exact_tenths_half_up (completed total : nat) : Z :=
  (2000 * Z.of_nat completed + Z.of_nat total) / (2 * Z.of_nat total).

Definition exact_tenths_half_even (completed total : nat) : Z :=
  round_half_even (1000 * Z.of_nat completed) (Z.of_nat total).

(** The place of a character in a string, counted from 0. *)
Fixpoint place_of (c : ascii) (s : string) : option Z :=
  match s with
  | "" => None
  | String d s' => if Ascii.eqb c d then Some 0 else Z.succ <$> place_of c s'
  end.

(** The value of a decimal digit. *)
Definition digit_value (c : ascii) : option Z := place_of c "0123456789".

(** The number that a string of decimal digits writes. *)
Fixpoint number_of (s : string) : option Z :=
  match s with
  | "" => Some 0
  | String c s' =>
      match digit_value c, number_of s' with
      | Some v, Some n => Some (v * 10 ^ Z.of_nat (String.length s') + n)
      | _, _ => None
      end
  end.

(** The text [s] is a decimal number with one decimal place that denotes
    [k] tenths: ["33.3"] denotes 333 tenths. *)
Definition denotes_tenths (s : string) (k : Z) : Prop :=
  exists whole digit n v,
    s = whole +:+ "." +:+ String digit "" /\ whole <> "" /\
    number_of whole = Some n /\ digit_value digit = Some v /\
    k = 10 * n + v.

(** *** Binary64 numbers, for the proofs about [completed / total * 100] *)

(** The record [mrs] locates the number [num / den]: its mantissa is the
    integer part, the round bit says that the fraction is at least a half,
    the sticky bit that it is neither zero nor a half. *)
Definition located (num den : Z) (mrs : shr_record) : Prop :=
  0 < den /\ 0 <= shr_m mrs /\
  0 <= num - shr_m mrs * den < den /\
  shr_r mrs = (den <=? 2 * (num - shr_m mrs * den)) /\
  shr_s mrs = negb (num - shr_m mrs * den =? 0)
              && negb (2 * (num - shr_m mrs * den) =? den).

(** A mantissa that rounding brought to [2^53] becomes [2^52] at the next
    exponent. *)
Definition renormalize (m e : Z) : Z * Z :=
  if m =? 2 ^ 53 then (2 ^ 52, e + 1) else (m, e).

Definition positive_float (me : Z * Z) : spec_float :=
  S754_finite false (Z.to_pos me.1) me.2.

(** A positive integer of [d] digits below [2^53], as a mantissa of 53
    digits. *)
Definition mantissa (n : Z) : Z := n * 2 ^ (53 - Zdigits2 n).

(** ** Sample worlds *)

(** The data file [[{"a": 1}]]: JSON, but not a list of tasks. *)
Definition other_json : list todo := [ {[ "a" := VInt 1 ]} ].

(** One todo, stored by an add. *)
Definition one_todo : world :=
  run_all [("2024-05-01T09:00:00", CmdAdd "a" "" Medium None)] first_run.

(** Two adds and the deletion of the first todo. *)
Definition after_delete : world :=
  run_all [("2024-05-01T09:00:00", CmdAdd "a" "" Medium None);
           ("2024-05-01T09:01:00", CmdAdd "b" "" Medium None);
           ("2024-05-01T09:02:00", CmdDelete 1)] first_run.

(** One more add after that: two todos with the id 2. *)
Definition twice_two : world :=
  exec (main "2024-05-01T09:03:00" (CmdAdd "c" "" Medium None)) after_delete.

(** Two todos, the second one completed. *)
Definition two_todos : world :=
  run_all [("2024-05-01T09:00:00", CmdAdd "Buy milk" "" High None);
           ("2024-05-01T09:01:00", CmdAdd "Call Bob" "about the MILK run" Low None);
           ("2024-05-01T09:02:00", CmdComplete 2)] first_run.

(** Eighty todos, the first 23 of them completed. *)
Definition eighty_todos : world :=
  run_all
    (map (fun _ => ("2024-05-01T09:00:00", CmdAdd "a" "" Medium None))
         (seq 0 80) ++
     map (fun i => ("2024-05-01T10:00:00", CmdComplete (Z.of_nat i)))
         (seq 1 23))
    first_run.

(** Three todos, one of them completed. *)
Definition three_todos : world :=
  run_all [("2024-05-01T09:00:00", CmdAdd "a" "" High None);
           ("2024-05-01T09:01:00", CmdAdd "b" "" Low None);
           ("2024-05-01T09:02:00", CmdAdd "c" "" Low None);
           ("2024-05-01T09:03:00", CmdComplete 2)] first_run.

(** ** Runs, in detail *)

(** What [load_todos] returns for a file. *)
Definition loaded (f : option file_content) : list todo :=
  match f with
  | Some (Document ts) => ts
  | _ => []
  end.

(** The dict [update_data] that [main] builds for the update command. *)
Definition update_data (title description : option string)
    (priority : option priority_choice) (due_date : option string)
    : list (string * value) :=
  update_entry "title" title ++
  update_entry "description" description ++
  update_entry "priority" (priority_name <$> priority) ++
  update_entry "due_date" due_date.

(** What one run with the command [c] does to the list that it loaded. *)
Inductive effect_of (now : string) : command -> list todo -> list todo -> Prop :=
| effect_none c ts : effect_of now c ts ts
| effect_add title description priority due_date ts :
    effect_of now (CmdAdd title description priority due_date) ts
      (ts ++ [new_todo (Z.of_nat (length ts) + 1) title description
                       (priority_name priority) now due_date])
| effect_update id title description priority due_date i t ts :
    find_todo id ts 0 = Ok (Some (i, t)) ->
    effect_of now (CmdUpdate id title description priority due_date) ts
      (<[i := apply_kwargs now (update_data title description priority due_date) t]> ts)
| effect_complete id i t ts :
    find_todo id ts 0 = Ok (Some (i, t)) ->
    effect_of now (CmdComplete id) ts
      (<[i := apply_kwargs now [("status", VStr "completed")] t]> ts)
| effect_delete id i t ts :
    find_todo id ts 0 = Ok (Some (i, t)) ->
    effect_of now (CmdDelete id) ts (delete i ts).

(** The computation changes the world by printing only. *)
Definition prints_only {A : Type} (c : M A) : Prop :=
  forall w, exists ls,
    snd (c w) = World (todos w) (file w) (trace w ++ map Stdout ls).

(** The id and the creation time of a todo. *)
Definition identity (t : todo) : option value * option value :=
  (t !! "id", t !! "created_at").

(** The status and the completion stamp agree: completed with a time, or
    pending with [None]. *)
Definition stamp_agrees (t : todo) : Prop :=
  (t !! "status" = Some (VStr "completed") /\
   exists s, t !! "completed_at" = Some (VStr s)) \/
  (t !! "status" = Some (VStr "pending") /\ t !! "completed_at" = Some VNone).

(** The id of the todo at index [k] is an integer not below [k + 1]. *)
Definition ids_from_position (ts : list todo) : Prop :=
  forall k t, ts !! k = Some t ->
    exists n, t !! "id" = Some (VInt n) /\ Z.of_nat k + 1 <= n.

(** The count stored for [p] in the dict of the priority breakdown. *)
Fixpoint count_of (p : value) (priorities : list (value * nat)) : nat :=
  match priorities with
  | [] => 0
  | (q, n) :: rest => if py_eq q p then n else count_of p rest
  end.

(** The number of todos whose priority is [p]. *)
Definition with_priority (p : value) (ts : list todo) : nat :=
  length (filter (fun t => t !! "priority" = Some p) ts).

(** The lists that a sequence of effects writes to the file, in order. *)
Fixpoint written (evs : list effect) : list (list todo) :=
  match evs with
  | [] => []
  | FileWrite ts :: rest => ts :: written rest
  | Stdout _ :: rest => written rest
  end.

(** The effects of a computation: nothing written and the file kept, or the
    final list written once. *)
Definition writes_once (m : M unit) : Prop :=
  forall w, exists evs,
    trace (exec m w) = trace w ++ evs /\
    ((written evs = [] /\ todos (exec m w) = todos w /\ file (exec m w) = file w) \/
     (written evs = [todos (exec m w)] /\
      file (exec m w) = Some (Document (todos (exec m w))))).

(** * Properties *)

(** ** Looking a todo up by id *)

Lemma find_todo_absent (todo_id : Z) (ts : list todo) (i : nat) :
  Forall (other_id todo_id) ts -> find_todo todo_id ts i = Ok None.
Proof.
  intros H. revert i.
  induction H as [|t ts [v [Hv Hne]] _ IH]; intros i; simpl; [reflexivity|].
  unfold getitem. rewrite Hv. simpl.
  unfold py_eq. rewrite bool_decide_eq_false_2 by exact Hne. apply IH.
Qed.

Lemma find_todo_first (todo_id : Z) (l1 l2 : list todo) (t : todo) (i : nat) :
  Forall (other_id todo_id) l1 -> has_id todo_id t ->
  find_todo todo_id (l1 ++ t :: l2) i = Ok (Some ((i + length l1)%nat, t)).
Proof.
  intros H Ht. revert i.
  induction H as [|u l1 [v [Hv Hne]] _ IH]; intros i; simpl.
  - unfold getitem. rewrite Ht. simpl.
    unfold py_eq. rewrite bool_decide_eq_true_2 by reflexivity.
    do 3 f_equal. lia.
  - unfold getitem. rewrite Hv. simpl.
    unfold py_eq. rewrite bool_decide_eq_false_2 by exact Hne.
    rewrite IH. do 3 f_equal. lia.
Qed.

Lemma find_todo_found (todo_id : Z) (ts : list todo) (i j : nat) (t : todo) :
  find_todo todo_id ts i = Ok (Some (j, t)) ->
  exists l1 l2, ts = l1 ++ t :: l2 /\ j = (i + length l1)%nat /\
                Forall (other_id todo_id) l1 /\ has_id todo_id t.
Proof.
  revert i. induction ts as [|u ts IH]; intros i; simpl; [discriminate|].
  unfold getitem. destruct (u !! "id") as [v|] eqn:Hv; simpl; [|discriminate].
  unfold py_eq. case_bool_decide as Hd.
  - intros [= <- <-]. exists [], ts. subst v.
    repeat split; [simpl; lia | constructor | exact Hv].
  - intros H. destruct (IH _ H) as (l1 & l2 & -> & -> & Hl1 & Ht).
    exists (u :: l1), l2. repeat split; [simpl; lia | | exact Ht].
    constructor; [exists v; auto | exact Hl1].
Qed.

(** ** What a call does, by the outcome of the lookup *)

Lemma update_todo_absent now todo_id kwargs w :
  find_todo todo_id (todos w) 0 = Ok None ->
  update_todo now todo_id kwargs w = not_found todo_id w.
Proof.
  intros H. unfold update_todo, bind, get_todos, lift. rewrite H. reflexivity.
Qed.

Lemma delete_todo_absent todo_id w :
  find_todo todo_id (todos w) 0 = Ok None ->
  delete_todo todo_id w = not_found todo_id w.
Proof.
  intros H. unfold delete_todo, bind, get_todos, lift. rewrite H. reflexivity.
Qed.

Lemma show_todo_absent todo_id w :
  find_todo todo_id (todos w) 0 = Ok None ->
  show_todo todo_id w = not_found todo_id w.
Proof.
  intros H. unfold show_todo, bind, get_todos, lift. rewrite H. reflexivity.
Qed.

Lemma update_todo_present now todo_id kwargs w i t :
  find_todo todo_id (todos w) 0 = Ok (Some (i, t)) ->
  let ts' := <[i := apply_kwargs now kwargs t]> (todos w) in
  update_todo now todo_id kwargs w =
  (Ok tt, World ts' (Some (Document ts'))
                ((trace w ++ [FileWrite ts']) ++ [Stdout (OutUpdated todo_id)])).
Proof.
  intros H. unfold update_todo, bind, get_todos, lift. rewrite H. reflexivity.
Qed.

Lemma delete_todo_present todo_id w i t :
  find_todo todo_id (todos w) 0 = Ok (Some (i, t)) ->
  let ts' := delete i (todos w) in
  delete_todo todo_id w =
  match getitem t "title" with
  | Ok title =>
      (Ok tt, World ts' (Some (Document ts'))
                    ((trace w ++ [FileWrite ts']) ++ [Stdout (OutDeleted title)]))
  | Raise e =>
      (Raise e, World ts' (Some (Document ts')) (trace w ++ [FileWrite ts']))
  end.
Proof.
  intros H. unfold delete_todo, bind, get_todos, lift. rewrite H. simpl.
  destruct (getitem t "title"); reflexivity.
Qed.

Lemma add_todo_run now title description priority due_date w :
  let ts' := (todos w ++
              [new_todo (Z.of_nat (length (todos w)) + 1) title description
                        priority now due_date])%list in
  add_todo now title description priority due_date w =
  (Ok tt, World ts' (Some (Document ts'))
                ((trace w ++ [FileWrite ts']) ++ [Stdout (OutAdded title)])).
Proof. reflexivity. Qed.

(** ** Well-formed tasks *)

Lemma is_task_field t key :
  is_task t = true -> In key fields ->
  exists v, t !! key = Some v /\ admissible key v = true.
Proof.
  intros H Hk. unfold is_task in H. rewrite forallb_forall in H.
  specialize (H key Hk). unfold field_ok in H.
  destruct (t !! key) as [v|]; [eauto | discriminate].
Qed.

Lemma is_task_insert t key v :
  admissible key v = true -> is_task t = true -> is_task (<[key := v]> t) = true.
Proof.
  intros Hv H. unfold is_task. rewrite forallb_forall. intros k Hk.
  unfold field_ok. rewrite lookup_insert. case_decide as Hd.
  - subst k. exact Hv.
  - destruct (is_task_field t k H Hk) as (u & -> & Hu). exact Hu.
Qed.

Lemma new_todo_is_task id title description priority now due_date :
  is_task (new_todo id title description (priority_name priority) now due_date) = true.
Proof. destruct priority, due_date; reflexivity. Qed.

Lemma apply_kwarg_is_task now t key v :
  admissible key v = true -> is_task t = true ->
  is_task (apply_kwarg now t (key, v)) = true.
Proof.
  intros Hv H. unfold apply_kwarg. case_decide; [|exact H].
  destruct (_ && _).
  - apply is_task_insert; [reflexivity|]. by apply is_task_insert.
  - by apply is_task_insert.
Qed.

Lemma apply_kwargs_is_task now kwargs t :
  Forall (fun kv => admissible kv.1 kv.2 = true) kwargs -> is_task t = true ->
  is_task (apply_kwargs now kwargs t) = true.
Proof.
  unfold apply_kwargs. intros H. revert t.
  induction H as [|[key v] kwargs Hv _ IH]; intros t Ht; simpl; [exact Ht|].
  apply IH. by apply apply_kwarg_is_task.
Qed.

(** A field that no entry of [kwargs] names keeps its value, the stamp
    [completed_at] apart. *)
Lemma apply_kwargs_frame now kwargs t field :
  field <> "completed_at" -> ~ In field (map fst kwargs) ->
  apply_kwargs now kwargs t !! field = t !! field.
Proof.
  unfold apply_kwargs. intros Hc. revert t.
  induction kwargs as [|[key v] kwargs IH]; intros t Hk; simpl; [reflexivity|].
  simpl in Hk. rewrite IH by tauto.
  unfold apply_kwarg. case_decide; [|reflexivity].
  assert (key <> field) by tauto.
  destruct (_ && _).
  - rewrite lookup_insert_ne by congruence. by rewrite lookup_insert_ne.
  - by rewrite lookup_insert_ne.
Qed.

(** ** Fields of a well-formed task *)

Lemma task_str_field t key :
  is_task t = true -> In key ["title"; "description"; "created_at"] ->
  exists s, t !! key = Some (VStr s).
Proof.
  intros H Hk.
  assert (In key fields) as Hin by (simpl in *; tauto).
  destruct (is_task_field t key H Hin) as (v & Hv & Hadm).
  simpl in Hk. destruct Hk as [<-|[<-|[<-|[]]]];
    destruct v; try discriminate; eauto.
Qed.

Lemma task_has_field t key :
  is_task t = true -> In key fields -> exists v, t !! key = Some v.
Proof.
  intros H Hk. destruct (is_task_field t key H Hk) as (v & Hv & _). eauto.
Qed.

(** ** Printing loops *)

Lemma for_each_print_lines {A} (f : A -> result line) xs ls w :
  Forall2 (fun x l => f x = Ok l) xs ls ->
  for_each (fun x => l <- lift (f x);; print l) xs w =
  (Ok tt, World (todos w) (file w) (trace w ++ map Stdout ls)).
Proof.
  intros H. revert w. induction H as [|x l xs ls Hx _ IH]; intros w; simpl.
  - destruct w. unfold ret. simpl. by rewrite app_nil_r.
  - unfold bind at 1. unfold bind at 1. unfold lift. rewrite Hx.
    unfold print at 1. rewrite IH. simpl. by rewrite <- app_assoc.
Qed.

Lemma for_each_print {A} (f : A -> result line) (g : A -> line) xs w :
  Forall (fun x => f x = Ok (g x)) xs ->
  for_each (fun x => l <- lift (f x);; print l) xs w =
  (Ok tt, World (todos w) (file w) (trace w ++ map (fun x => Stdout (g x)) xs)).
Proof.
  intros H. rewrite (for_each_print_lines f xs (map g xs)).
  - by rewrite map_map.
  - induction H; constructor; assumption.
Qed.

(** ** Computations that leave the list and the file alone *)

Lemma read_only_ret {A} (a : A) : read_only (ret a).
Proof. intros w. split; reflexivity. Qed.

Lemma read_only_lift {A} (r : result A) : read_only (lift r).
Proof. intros w. split; reflexivity. Qed.

Lemma read_only_print l : read_only (print l).
Proof. intros w. split; reflexivity. Qed.

Lemma read_only_get_todos : read_only get_todos.
Proof. intros w. split; reflexivity. Qed.

Lemma read_only_bind {A B} (c : M A) (k : A -> M B) :
  read_only c -> (forall a, read_only (k a)) -> read_only (bind c k).
Proof.
  intros Hc Hk w. unfold bind. specialize (Hc w).
  destruct (c w) as [[a|e] w1]; simpl in *; [|exact Hc].
  destruct (Hk a w1) as [H1 H2]. destruct Hc as [H3 H4]. split; congruence.
Qed.

Lemma read_only_for_each {A} (body : A -> M unit) xs :
  (forall x, read_only (body x)) -> read_only (for_each body xs).
Proof.
  intros Hb. induction xs as [|x xs IH]; simpl.
  - apply read_only_ret.
  - apply read_only_bind; [apply Hb | intros _; exact IH].
Qed.

Create HintDb read_only.

#[local] Hint Resolve read_only_ret read_only_lift read_only_print
  read_only_get_todos read_only_bind read_only_for_each : read_only.

Lemma read_only_list_todos status priority : read_only (list_todos status priority).
Proof.
  unfold list_todos.
  repeat (apply read_only_bind; [|intros ?]); auto with read_only.
  - destruct (truthy _); auto with read_only.
  - destruct (truthy _); auto with read_only.
  - destruct a1; auto 6 with read_only.
Qed.

Lemma read_only_show_todo todo_id : read_only (show_todo todo_id).
Proof.
  unfold show_todo.
  repeat (apply read_only_bind; [|intros ?]); auto with read_only.
  destruct a0 as [[? ?]|]; auto with read_only.
Qed.

Lemma read_only_search_todos query : read_only (search_todos query).
Proof.
  unfold search_todos.
  repeat (apply read_only_bind; [|intros ?]); auto with read_only.
  destruct a0; auto 6 with read_only.
Qed.

Lemma read_only_get_statistics : read_only get_statistics.
Proof.
  unfold get_statistics.
  repeat (apply read_only_bind; [|intros ?]); auto 6 with read_only.
Qed.

(** ** Runs of the program *)

Lemma init_synced w :
  synced w -> init w = (Ok tt, World (todos w) (file w) (trace w)).
Proof.
  unfold synced, init, bind, load_todos, set_todos, ret.
  destruct (file w) as [[ts|raw]|] eqn:Hf; simpl; intros H; [| contradiction |];
    by rewrite H, Hf.
Qed.

Lemma find_todo_lookup todo_id ts i t :
  find_todo todo_id ts 0 = Ok (Some (i, t)) -> ts !! i = Some t.
Proof.
  intros H. destruct (find_todo_found _ _ _ _ _ H) as (l1 & l2 & -> & -> & _).
  simpl. by apply list_lookup_middle.
Qed.

Lemma update_entry_admissible key arg :
  (forall s, arg = Some s -> admissible key (VStr s) = true) ->
  Forall (fun kv => admissible kv.1 kv.2 = true) (update_entry key arg).
Proof.
  intros H. unfold update_entry. destruct arg as [s|]; simpl; [|constructor].
  destruct (negb _); repeat constructor. by apply H.
Qed.

Lemma update_entry_keys key arg field :
  In field (map fst (update_entry key arg)) -> field = key.
Proof.
  unfold update_entry. destruct (truthy _); simpl; [|tauto].
  intros [H|[]]. by symmetry.
Qed.

Lemma update_todo_changes now c todo_id kwargs w :
  is_delete c = false ->
  Forall (fun kv => admissible kv.1 kv.2 = true) kwargs ->
  ~ In "id" (map fst kwargs) ->
  synced w ->
  synced (exec (update_todo now todo_id kwargs) w) /\
  changes now c (todos w) (todos (exec (update_todo now todo_id kwargs) w)).
Proof.
  intros Hc Hk Hid Hw. unfold exec.
  destruct (find_todo todo_id (todos w) 0) as [[[i t]|]|e] eqn:Hf.
  - rewrite (update_todo_present _ _ _ _ _ _ Hf). simpl. split; [reflexivity|].
    apply changes_edit; auto. by eapply find_todo_lookup.
  - rewrite (update_todo_absent _ _ _ _ Hf). simpl.
    split; [exact Hw | constructor].
  - unfold update_todo, bind, get_todos, lift. rewrite Hf. simpl.
    split; [exact Hw | constructor].
Qed.

Lemma read_only_changes now c (m : M unit) w :
  read_only m -> synced w ->
  synced (exec m w) /\ changes now c (todos w) (todos (exec m w)).
Proof.
  intros Hm Hw. destruct (Hm w) as [Ht Hf]. unfold exec. split.
  - unfold synced in *. by rewrite Hf, Ht.
  - rewrite Ht. constructor.
Qed.

Lemma dispatch_changes now c w :
  synced w ->
  synced (exec (dispatch now c) w) /\
  changes now c (todos w) (todos (exec (dispatch now c) w)).
Proof.
  intros Hw. destruct c as [title d p due|s p|id title d p due|id|id|id|q|]; simpl.
  - split; [reflexivity | constructor].
  - apply read_only_changes; [apply read_only_list_todos | exact Hw].
  - set (update_data := _ ++ _).
    assert (Forall (fun kv => admissible kv.1 kv.2 = true) update_data) as Hadm.
    { subst update_data. repeat apply Forall_app_2;
        apply update_entry_admissible; try reflexivity.
      intros s. destruct p as [[]|]; intros [= <-]; reflexivity. }
    assert (~ In "id" (map fst update_data)) as Hid.
    { subst update_data. rewrite !map_app, !in_app_iff.
      intros [H|[H|[H|H]]]; apply update_entry_keys in H; discriminate. }
    destruct update_data.
    + apply read_only_changes; [apply read_only_print | exact Hw].
    + by apply update_todo_changes.
  - unfold exec.
    destruct (find_todo id (todos w) 0) as [[[i t]|]|e] eqn:Hf.
    + rewrite (delete_todo_present _ _ _ _ Hf).
      destruct (getitem t "title"); simpl; split; try reflexivity; constructor.
    + rewrite (delete_todo_absent _ _ Hf). simpl. split; [exact Hw | constructor].
    + unfold delete_todo, bind, get_todos, lift. rewrite Hf. simpl.
      split; [exact Hw | constructor].
  - apply update_todo_changes;
      [reflexivity | repeat constructor
      | simpl; intros [H|[]]; discriminate | exact Hw].
  - apply read_only_changes; [apply read_only_show_todo | exact Hw].
  - apply read_only_changes; [apply read_only_search_todos | exact Hw].
  - apply read_only_changes; [apply read_only_get_statistics | exact Hw].
Qed.

Lemma main_changes now c w :
  synced w ->
  synced (exec (main now c) w) /\
  changes now c (todos w) (todos (exec (main now c) w)).
Proof.
  intros Hw. unfold main, exec, bind. rewrite (init_synced w Hw).
  apply (dispatch_changes now c (World (todos w) (file w) (trace w))). exact Hw.
Qed.

(** An invariant of the list that every change of a run keeps holds in every
    reachable state. *)
Lemma run_all_invariant (ok : command -> Prop) (P : list todo -> Prop) runs w :
  (forall now c ts ts', ok c -> P ts -> changes now c ts ts' -> P ts') ->
  Forall (fun r => ok r.2) runs ->
  synced w -> P (todos w) ->
  synced (run_all runs w) /\ P (todos (run_all runs w)).
Proof.
  intros Hstep Hruns. revert w.
  induction Hruns as [|[now c] runs Hc _ IH]; intros w Hw HP; simpl; [auto|].
  destruct (main_changes now c w Hw) as [Hs Hch].
  apply IH; [exact Hs|]. eapply Hstep; eauto.
Qed.

Lemma changes_tasks now c ts ts' :
  tasks ts -> changes now c ts ts' -> tasks ts'.
Proof.
  unfold tasks. intros Hts Hch.
  destruct Hch as [c ts|title d p due ts|c i t kwargs ts _ Hi Hk _|id i ts].
  - exact Hts.
  - apply Forall_app_2; [exact Hts|]. repeat constructor.
    apply new_todo_is_task.
  - apply Forall_insert; [exact Hts|]. apply apply_kwargs_is_task; [exact Hk|].
    rewrite Forall_forall in Hts. apply Hts. by eapply list_elem_of_lookup_2.
  - by apply Forall_delete.
Qed.

Theorem reachable_tasks w : reachable w -> synced w /\ tasks (todos w).
Proof.
  intros [runs ->].
  apply (run_all_invariant (fun _ => True) tasks).
  - intros now c ts ts' _. apply changes_tasks.
  - apply Forall_forall. auto.
  - reflexivity.
  - constructor.
Qed.

(** ** Ids of added todos *)

Lemma new_todo_id id title description priority now due_date :
  new_todo id title description priority now due_date !! "id" = Some (VInt id).
Proof. unfold new_todo. apply lookup_insert_eq. Qed.

Lemma changes_numbered now c ts ts' :
  is_delete c = false -> numbered ts -> changes now c ts ts' -> numbered ts'.
Proof.
  intros Hc Hts Hch.
  destruct Hch as [c ts|title d p due ts|c i t kwargs ts _ Hi _ Hid|id i ts].
  - exact Hts.
  - intros k t Hk. apply lookup_app_Some in Hk as [Hk|[Hlen Hk]].
    + by apply Hts.
    + apply list_lookup_singleton_Some in Hk as [Hk <-].
      rewrite new_todo_id. do 3 f_equal. lia.
  - intros k u Hk. destruct (decide (k = i)) as [->|Hne].
    + rewrite list_lookup_insert_eq in Hk by (by eapply lookup_lt_Some).
      injection Hk as <-. rewrite apply_kwargs_frame by (done || exact Hid).
      by apply Hts.
    + rewrite list_lookup_insert_ne in Hk by congruence. by apply Hts.
  - discriminate.
Qed.

(** C1, as stated, fails: in the reachable state left by add, add, delete 1,
    the todo that the next add creates gets the id 2, which the todo "b"
    already holds. *)
Lemma add_todo_repeats_id_after_delete :
  reachable after_delete /\
  ~ id_unique_at (length (todos after_delete))
      (todos (exec (add_todo "2024-05-01T09:03:00" "c" "" "medium" None)
                   after_delete)).
Proof.
  split; [eexists; reflexivity|].
  intros H. apply (H 0%nat _ _ eq_refl eq_refl); vm_compute; congruence.
Qed.

(** C1 (amended): in every state reached from the empty store by runs none of
    which is a delete, the todo created by [add_todo] has an id that no other
    todo stored after the call has. *)
Theorem add_todo_id_unique_without_delete
    runs now title description priority due_date :
  Forall (fun r => is_delete r.2 = false) runs ->
  let w := run_all runs first_run in
  id_unique_at (length (todos w))
    (todos (exec (add_todo now title description priority due_date) w)).
Proof.
  intros Hruns w.
  assert (numbered (todos w)) as Hnum.
  { apply (run_all_invariant (fun c => is_delete c = false) numbered
             runs first_run); try done.
    intros ? ? ? ?. apply changes_numbered. }
  unfold exec. rewrite add_todo_run. simpl. intros j t u Ht Hu Hj.
  rewrite list_lookup_middle in Ht by reflexivity. injection Ht as <-.
  rewrite new_todo_id.
  apply lookup_app_Some in Hu as [Hu|[Hlen Hu]].
  - rewrite (Hnum _ _ Hu). apply lookup_lt_Some in Hu. intros [= E]. lia.
  - apply list_lookup_singleton_Some in Hu as [Hu _]. lia.
Qed.

Lemma add_todo_id_unique_without_delete_witness :
  Forall (fun r => is_delete r.2 = false)
    [("2024-05-01T09:00:00", CmdAdd "a" "" Medium None);
     ("2024-05-01T09:01:00", CmdComplete 1)] /\
  id_unique_at 1
    (todos (exec (add_todo "2024-05-01T09:02:00" "b" "" "high" None)
              (run_all [("2024-05-01T09:00:00", CmdAdd "a" "" Medium None);
                        ("2024-05-01T09:01:00", CmdComplete 1)] first_run))).
Proof.
  split; [repeat constructor|].
  apply (add_todo_id_unique_without_delete
           [("2024-05-01T09:00:00", CmdAdd "a" "" Medium None);
            ("2024-05-01T09:01:00", CmdComplete 1)]).
  repeat constructor.
Defined.

(** ** Adding a todo with an empty title *)

(** C2, as stated, fails: [add_todo] with the title [""] returns normally,
    and the todo with the empty title is stored and written to the file. *)
Lemma add_todo_accepts_empty_title :
  let c := add_todo "2024-05-01T09:00:00" "" "" "medium" None in
  outcome c first_run = Ok tt /\
  (exists t, todos (exec c first_run) = [t] /\ t !! "title" = Some (VStr "")) /\
  file (exec c first_run) = Some (Document (todos (exec c first_run))).
Proof.
  simpl. repeat split. eexists. split; reflexivity.
Qed.

(** C2 (amended): [add_todo] does not validate its title; for every title,
    the empty one included, it returns normally, appends one todo with that
    title, and writes the whole list to the file. *)
Theorem add_todo_never_fails now title description priority due_date w :
  let c := add_todo now title description priority due_date in
  outcome c w = Ok tt /\
  (exists t, todos (exec c w) = todos w ++ [t] /\
             t !! "title" = Some (VStr title) /\
             t !! "id" = Some (VInt (Z.of_nat (length (todos w)) + 1))) /\
  file (exec c w) = Some (Document (todos (exec c w))) /\
  exists tr, trace (exec c w) = trace w ++ FileWrite (todos (exec c w)) :: tr.
Proof.
  simpl. unfold outcome, exec. rewrite add_todo_run. simpl.
  split; [reflexivity|]. split; [|split; [reflexivity|]].
  - eexists. split; [reflexivity|]. split; [reflexivity|]. apply new_todo_id.
  - eexists. rewrite <- app_assoc. reflexivity.
Qed.

(** ** Updates and the fields [id] and [created_at] *)

(** C3, as stated, fails: [update_todo] overwrites every key that the todo
    has, [id] and [created_at] included. *)
Lemma update_todo_overwrites_id_and_created_at :
  let kwargs := [("id", VInt 7); ("created_at", VStr "1999-12-31T00:00:00")] in
  let w' := exec (update_todo "2024-05-01T09:01:00" 1 kwargs) one_todo in
  exists t t',
    todos one_todo = [t] /\ todos w' = [t'] /\
    t !! "id" = Some (VInt 1) /\ t' !! "id" = Some (VInt 7) /\
    t !! "created_at" = Some (VStr "2024-05-01T09:00:00") /\
    t' !! "created_at" = Some (VStr "1999-12-31T00:00:00").
Proof.
  simpl. do 2 eexists. split; [reflexivity|]. split; [reflexivity|].
  vm_compute. tauto.
Qed.

(** C3 (amended): [update_todo] on an existing todo leaves [id] unchanged
    when no key of the changes is [id], and [created_at] unchanged when no
    key of the changes is [created_at]; the todo keeps its place in the
    list. *)
Theorem update_todo_keeps_unnamed_fields now todo_id kwargs w i t :
  find_todo todo_id (todos w) 0 = Ok (Some (i, t)) ->
  exists t',
    todos (exec (update_todo now todo_id kwargs) w) = <[i := t']> (todos w) /\
    todos (exec (update_todo now todo_id kwargs) w) !! i = Some t' /\
    (~ In "id" (map fst kwargs) -> t' !! "id" = t !! "id") /\
    (~ In "created_at" (map fst kwargs) ->
     t' !! "created_at" = t !! "created_at").
Proof.
  intros Hf. exists (apply_kwargs now kwargs t).
  unfold exec. rewrite (update_todo_present _ _ _ _ _ _ Hf). simpl.
  split; [reflexivity|]. split.
  - apply list_lookup_insert_eq. eapply lookup_lt_Some.
    by eapply find_todo_lookup.
  - split; intros H; by apply apply_kwargs_frame.
Qed.

Lemma update_todo_keeps_unnamed_fields_witness :
  exists t',
    todos (exec (update_todo "2024-05-01T09:01:00" 1 [("title", VStr "b")])
                one_todo)
    = <[0%nat := t']> (todos one_todo) /\
    todos (exec (update_todo "2024-05-01T09:01:00" 1 [("title", VStr "b")])
                one_todo) !! 0%nat = Some t' /\
    (~ In "id" (map fst [("title", VStr "b")]) ->
     t' !! "id" = new_todo 1 "a" "" "medium" "2024-05-01T09:00:00" None !! "id") /\
    (~ In "created_at" (map fst [("title", VStr "b")]) ->
     t' !! "created_at" =
     new_todo 1 "a" "" "medium" "2024-05-01T09:00:00" None !! "created_at").
Proof.
  apply (update_todo_keeps_unnamed_fields "2024-05-01T09:01:00" 1
           [("title", VStr "b")] one_todo 0%nat
           (new_todo 1 "a" "" "medium" "2024-05-01T09:00:00" None)).
  reflexivity.
Defined.

(** ** Ids that no todo holds *)

(** C4: when every stored todo has an id other than [todo_id], each of
    [update_todo], [delete_todo], [complete_todo] and [show_todo] prints the
    not-found line and does nothing else: the list and the file are the ones
    before the call, and the trace grows by that line only (no file write). *)
Theorem absent_id_is_not_found now todo_id kwargs w :
  Forall (other_id todo_id) (todos w) ->
  update_todo now todo_id kwargs w = not_found todo_id w /\
  delete_todo todo_id w = not_found todo_id w /\
  complete_todo now todo_id w = not_found todo_id w /\
  show_todo todo_id w = not_found todo_id w /\
  not_found todo_id w =
    (Ok tt, World (todos w) (file w) (trace w ++ [Stdout (OutNotFound todo_id)])).
Proof.
  intros H. pose proof (find_todo_absent todo_id (todos w) 0 H) as Hf.
  repeat split.
  - by apply update_todo_absent.
  - by apply delete_todo_absent.
  - by apply update_todo_absent.
  - by apply show_todo_absent.
Qed.

Lemma absent_id_is_not_found_witness :
  Forall (other_id 5) (todos one_todo) /\
  show_todo 5 one_todo = not_found 5 one_todo.
Proof.
  assert (Forall (other_id 5) (todos one_todo)) as H.
  { repeat constructor. exists (VInt 1). split; [reflexivity | discriminate]. }
  split; [exact H|].
  apply (absent_id_is_not_found "2024-05-01T09:01:00" 5 [] one_todo H).
Defined.

(** ** Deleting *)

(** C5, as stated, fails: with two todos of id 2 stored, [delete_todo 2]
    removes the first, and [show_todo 2] then finds the second and prints it
    instead of the not-found line. *)
Lemma show_todo_finds_twin_after_delete :
  reachable twice_two /\
  (exists t u, todos twice_two = [t; u] /\ has_id 2 t /\ has_id 2 u /\
     let w' := exec (delete_todo 2) twice_two in
     todos w' = [u] /\
     show_todo 2 w' =
       (Ok tt, World (todos w') (file w') (trace w' ++ [Stdout (OutDetails u)])) /\
     show_todo 2 w' <> not_found 2 w').
Proof.
  split.
  - exists [("2024-05-01T09:00:00", CmdAdd "a" "" Medium None);
            ("2024-05-01T09:01:00", CmdAdd "b" "" Medium None);
            ("2024-05-01T09:02:00", CmdDelete 1);
            ("2024-05-01T09:03:00", CmdAdd "c" "" Medium None)].
    reflexivity.
  - do 2 eexists. split; [reflexivity|].
    split; [reflexivity|]. split; [reflexivity|].
    split; [reflexivity|].
    assert (forall w u, show_todo 2 w =
              (Ok tt, World (todos w) (file w) (trace w ++ [Stdout (OutDetails u)])) ->
            show_todo 2 w <> not_found 2 w) as Hne.
    { intros w u -> [= H]. apply app_inv_head in H. discriminate. }
    split; [reflexivity|]. eapply Hne. reflexivity.
Qed.

Lemma first_with_id todo_id (ts : list todo) :
  Forall (fun t => is_Some (t !! "id")) ts ->
  Exists (has_id todo_id) ts ->
  exists l1 t l2,
    ts = l1 ++ t :: l2 /\ Forall (other_id todo_id) l1 /\ has_id todo_id t.
Proof.
  intros Hids Hex. induction Hids as [|u ts [v Hv] _ IH].
  - inversion Hex.
  - destruct (decide (v = VInt todo_id)) as [->|Hne].
    + exists [], u, ts. repeat split; [constructor | exact Hv].
    + destruct IH as (l1 & t & l2 & -> & Hl1 & Ht).
      * inversion Hex as [? ? Hu|]; [|assumption].
        unfold has_id in Hu. congruence.
      * exists (u :: l1), t, l2. repeat split; [|exact Ht].
        constructor; [exists v; auto | exact Hl1].
Qed.

(** C5 (amended): when every stored todo has an id and some todo has the id
    [todo_id], [delete_todo] removes exactly one todo, the first with that
    id, and writes the list; a following [show_todo] prints the not-found
    line provided that no other stored todo had the id. *)
Theorem delete_todo_removes_first todo_id w :
  Forall (fun t => is_Some (t !! "id")) (todos w) ->
  Exists (has_id todo_id) (todos w) ->
  let w' := exec (delete_todo todo_id) w in
  exists l1 t l2,
    todos w = l1 ++ t :: l2 /\
    Forall (other_id todo_id) l1 /\ has_id todo_id t /\
    todos w' = l1 ++ l2 /\
    file w' = Some (Document (l1 ++ l2)) /\
    (Forall (other_id todo_id) l2 ->
     show_todo todo_id w' = not_found todo_id w').
Proof.
  intros Hids Hex w'.
  destruct (first_with_id todo_id _ Hids Hex) as (l1 & t & l2 & Hts & Hl1 & Ht).
  exists l1, t, l2. split; [exact Hts|]. split; [exact Hl1|]. split; [exact Ht|].
  pose proof (find_todo_first todo_id l1 l2 t 0 Hl1 Ht) as Hf.
  rewrite <- Hts in Hf. simpl in Hf.
  assert (delete (length l1) (todos w) = l1 ++ l2) as Hdel.
  { rewrite Hts. by rewrite delete_middle. }
  assert (todos w' = l1 ++ l2 /\ file w' = Some (Document (l1 ++ l2))) as [E1 E2].
  { subst w'. unfold exec. rewrite (delete_todo_present _ _ _ _ Hf).
    rewrite Hdel. destruct (getitem t "title"); simpl; split; reflexivity. }
  split; [exact E1|]. split; [exact E2|].
  intros Hl2. apply show_todo_absent. rewrite E1.
  apply find_todo_absent. by apply Forall_app_2.
Qed.

Lemma delete_todo_removes_first_witness :
  Forall (fun t => is_Some (t !! "id")) (todos one_todo) /\
  Exists (has_id 1) (todos one_todo) /\
  exists l1 t l2,
    todos one_todo = l1 ++ t :: l2 /\
    Forall (other_id 1) l1 /\ has_id 1 t /\
    todos (exec (delete_todo 1) one_todo) = l1 ++ l2 /\
    file (exec (delete_todo 1) one_todo) = Some (Document (l1 ++ l2)) /\
    (Forall (other_id 1) l2 ->
     show_todo 1 (exec (delete_todo 1) one_todo) =
     not_found 1 (exec (delete_todo 1) one_todo)).
Proof.
  assert (Forall (fun t : todo => is_Some (t !! "id")) (todos one_todo)) as H1.
  { repeat constructor. exists (VInt 1). reflexivity. }
  assert (Exists (has_id 1) (todos one_todo)) as H2.
  { constructor. reflexivity. }
  split; [exact H1|]. split; [exact H2|].
  apply (delete_todo_removes_first 1 one_todo H1 H2).
Defined.

(** ** Completing *)

Lemma find_todo_replaced todo_id ts i t t' :
  find_todo todo_id ts 0 = Ok (Some (i, t)) -> has_id todo_id t' ->
  find_todo todo_id (<[i := t']> ts) 0 = Ok (Some (i, t')).
Proof.
  intros Hf Ht'.
  destruct (find_todo_found _ _ _ _ _ Hf) as (l1 & l2 & -> & -> & Hl1 & _).
  simpl. rewrite insert_app_r_alt by lia. rewrite Nat.sub_diag. simpl.
  by apply (find_todo_first todo_id l1 l2 t' 0).
Qed.

Lemma complete_kwargs now (t : todo) :
  is_Some (t !! "status") ->
  apply_kwargs now [("status", VStr "completed")] t =
  <["completed_at" := VStr now]> (<["status" := VStr "completed"]> t).
Proof.
  intros H. unfold apply_kwargs. simpl. unfold apply_kwarg.
  case_decide; [reflexivity | contradiction].
Qed.



(** ** Loading *)

(** C7, as stated, fails: the data file holds [[{"a": 1}]], which does not
    parse as a list of tasks.  [load_todos] reports nothing and returns that
    list, not the empty one; the manager starts with it, and the run of the
    command [list] ends in [KeyError] after the header. *)
Lemma load_todos_returns_other_json :
  let w := World [] (Some (Document other_json)) [] in
  ~ tasks other_json /\
  load_todos w = (Ok other_json, w) /\
  exec init w = World other_json (Some (Document other_json)) [] /\
  main "2024-05-01T09:00:00" (CmdList None None) w =
    (Raise (KeyError (VStr "status")),
     World other_json (Some (Document other_json)) [Stdout (OutListHeader 1)]).
Proof.
  repeat split. intros H. apply Forall_inv in H. discriminate.
Qed.

(** C7 (amended): [load_todos] returns the empty list when the data file
    does not exist; when the file holds text that is not JSON it prints the
    error line and returns the empty list; in both cases the call returns
    normally and a new manager starts with no todos.  Text that is JSON is
    returned as decoded, with no message and no check of what it holds. *)
Theorem load_todos_fails_soft ts tr :
  load_todos (World ts None tr) = (Ok [], World ts None tr) /\
  todos (exec init (World ts None tr)) = [] /\
  (forall raw,
     load_todos (World ts (Some (Malformed raw)) tr)
       = (Ok [], World ts (Some (Malformed raw)) (tr ++ [Stdout OutErrorReading])) /\
     outcome init (World ts (Some (Malformed raw)) tr) = Ok tt /\
     todos (exec init (World ts (Some (Malformed raw)) tr)) = []) /\
  (forall decoded,
     load_todos (World ts (Some (Document decoded)) tr)
       = (Ok decoded, World ts (Some (Document decoded)) tr) /\
     exec init (World ts (Some (Document decoded)) tr)
       = World decoded (Some (Document decoded)) tr).
Proof. repeat split. Qed.

(** ** Searching *)

Lemma lower_app a b : lower (a +:+ b) = lower a +:+ lower b.
Proof. induction a as [|c a IH]; simpl; [reflexivity | by rewrite IH]. Qed.

Lemma lower_split s x y :
  lower s = x +:+ y -> exists a b, s = a +:+ b /\ lower a = x /\ lower b = y.
Proof.
  revert s. induction x as [|c x IH]; intros s H; simpl in H.
  - exists "", s. auto.
  - destruct s as [|d s]; simpl in H; [discriminate|].
    injection H as Hc Hs. destruct (IH s Hs) as (a & b & -> & <- & <-).
    exists (String d a), b. simpl. by rewrite Hc.
Qed.

Lemma starts_with_spec p s :
  starts_with p s = true <-> exists r, s = p +:+ r.
Proof.
  revert s. induction p as [|a p IH]; intros s; simpl.
  - split; [intros _; by exists s | reflexivity].
  - destruct s as [|b s].
    + split; [discriminate | intros [r Hr]; discriminate].
    + rewrite andb_true_iff, IH. split.
      * intros [Hab [r ->]]. apply Ascii.eqb_eq in Hab as ->. by exists r.
      * intros [r [= -> ->]]. split; [apply Ascii.eqb_refl | by exists r].
Qed.

Lemma contains_spec q s :
  contains q s = true <-> exists a b, s = a +:+ q +:+ b.
Proof.
  induction s as [|c s IH]; simpl; rewrite orb_true_iff, starts_with_spec.
  - split.
    + intros [[r Hr]|]; [|discriminate]. by exists "", r.
    + intros (a & b & H). left. destruct a; [|discriminate]. by exists b.
  - rewrite IH. split.
    + intros [[r Hr]|(a & b & ->)]; [by exists "", r|].
      by exists (String c a), b.
    + intros (a & b & H). destruct a as [|d a]; simpl in H.
      * left. by exists b.
      * right. injection H as -> ->. by exists a, b.
Qed.

Lemma all_ascii_complete c : In c all_ascii.
Proof.
  rewrite <- (ascii_nat_embedding c). apply in_map, in_seq.
  pose proof (nat_ascii_bounded c). lia.
Qed.

Lemma all_ascii_checked (P : ascii -> ascii -> bool) :
  forallb (fun a => forallb (P a) all_ascii) all_ascii = true ->
  forall a b, P a b = true.
Proof.
  intros H a b. rewrite forallb_forall in H.
  specialize (H a (all_ascii_complete a)). rewrite forallb_forall in H.
  apply H, all_ascii_complete.
Qed.

Lemma same_letterb_spec a b : same_letterb a b = true <-> same_letter a b.
Proof.
  unfold same_letterb, same_letter.
  rewrite orb_true_iff, Ascii.eqb_eq, existsb_exists. split.
  - intros [H|[[x y] [Hin H]]]; [by left | right]. simpl in H.
    rewrite orb_true_iff, !andb_true_iff, !Ascii.eqb_eq in H.
    destruct H as [[-> ->]|[-> ->]]; auto.
  - intros [H|[H|H]]; [by left | right; exists (a, b) | right; exists (b, a)];
      (split; [exact H|]); simpl; rewrite !Ascii.eqb_refl; simpl;
      auto using orb_true_r.
Qed.

(** [lower_ascii] sends two characters to the same one exactly when they
    are equal up to case: checked on all pairs of characters. *)
Lemma lower_ascii_cases :
  forallb (fun a =>
    forallb (fun b => Bool.eqb (Ascii.eqb (lower_ascii a) (lower_ascii b))
                               (same_letterb a b)) all_ascii) all_ascii = true.
Proof. vm_compute. reflexivity. Qed.

Lemma lower_ascii_same a b :
  lower_ascii a = lower_ascii b <-> same_letter a b.
Proof.
  rewrite <- same_letterb_spec, <- Ascii.eqb_eq.
  pose proof (all_ascii_checked _ lower_ascii_cases a b) as H.
  apply Bool.eqb_prop in H. by rewrite H.
Qed.

Lemma lower_equal a b : lower a = lower b <-> equal_ignoring_case a b.
Proof.
  split.
  - revert b. induction a as [|c a IH]; intros [|d b] H; simpl in H;
      try discriminate; [constructor|].
    injection H as Hc Hs. constructor; [by apply lower_ascii_same | by apply IH].
  - induction 1 as [|c d a b Hc _ IH]; simpl; [reflexivity|].
    apply lower_ascii_same in Hc. by rewrite Hc, IH.
Qed.

Lemma contains_lower q s :
  contains (lower q) (lower s) = true <-> ci_substring q s.
Proof.
  rewrite contains_spec. split.
  - intros (a & b & H).
    apply lower_split in H as (pre & rest & -> & <- & H).
    apply lower_split in H as (mid & post & -> & H & <-).
    exists pre, mid, post. by rewrite <- lower_equal.
  - intros (pre & mid & post & -> & H). apply lower_equal in H.
    exists (lower pre), (lower post). by rewrite !lower_app, H.
Qed.

Lemma search_match_task query t :
  is_task t = true ->
  exists hit, search_match (lower query) t = Ok hit /\
              (hit = true <-> matches_query query t).
Proof.
  intros H.
  destruct (task_str_field t "title" H) as [title Ht]; [simpl; tauto|].
  destruct (task_str_field t "description" H) as [d Hd]; [simpl; tauto|].
  unfold search_match, getitem. rewrite Ht. simpl.
  destruct (contains (lower query) (lower title)) eqn:Hc.
  - exists true. split; [reflexivity|]. split; [|reflexivity]. intros _.
    exists title, d. apply contains_lower in Hc. auto.
  - rewrite Hd. simpl. eexists. split; [reflexivity|].
    rewrite contains_lower. split.
    + intros Hq. exists title, d. auto.
    + intros (title' & d' & Ht' & Hd' & [Hq|Hq]).
      * rewrite Ht in Ht'. injection Ht' as <-.
        apply contains_lower in Hq. congruence.
      * rewrite Hd in Hd'. by injection Hd' as <-.
Qed.

#[global] Instance matches_query_dec query t : Decision (matches_query query t).
Proof.
  destruct (t !! "title") as [[| |title]|] eqn:Ht;
    try (right; intros (? & ? & ? & _); congruence).
  destruct (t !! "description") as [[| |d]|] eqn:Hd;
    try (right; intros (? & ? & _ & ? & _); congruence).
  destruct (contains (lower query) (lower title)) eqn:H1.
  { left. exists title, d. apply contains_lower in H1. auto. }
  destruct (contains (lower query) (lower d)) eqn:H2.
  { left. exists title, d. apply contains_lower in H2. auto. }
  right. intros (title' & d' & Ht' & Hd' & [Hq|Hq]);
    apply contains_lower in Hq; congruence.
Defined.

Lemma search_loop_tasks query ts :
  tasks ts ->
  search_loop (lower query) ts = Ok (filter (matches_query query) ts).
Proof.
  induction 1 as [|t ts Ht _ IH]; simpl; [reflexivity|].
  destruct (search_match_task query t Ht) as (hit & -> & Hhit). simpl.
  rewrite IH. simpl. rewrite filter_cons.
  destruct hit; case_decide; try reflexivity.
  - exfalso. tauto.
  - exfalso. assert (false = true) by tauto. discriminate.
Qed.

Lemma search_item_task t : is_task t = true -> search_item t = Ok (OutSearchItem t).
Proof.
  intros H. unfold search_item, getitem.
  destruct (task_has_field t "status" H) as [? ->]; [simpl; tauto|].
  destruct (task_has_field t "id" H) as [? ->]; [simpl; tauto|].
  destruct (task_has_field t "title" H) as [? ->]; [simpl; tauto|].
  reflexivity.
Qed.



(** The query ["MILK"] on the todos "Buy milk" and "Call Bob" (described as
    "about the MILK run"): both match, by the title and by the description. *)
Example search_todos_milk :
  search_lines "MILK" (filter (matches_query "MILK") (todos two_todos)) =
    OutSearchHeader "MILK" 2 :: map OutSearchItem (todos two_todos) /\
  search_lines "bob" (filter (matches_query "bob") (todos two_todos)) =
    OutSearchHeader "bob" 1 :: map OutSearchItem (drop 1 (todos two_todos)) /\
  search_lines "tea" (filter (matches_query "tea") (todos two_todos)) =
    [OutNoMatch "tea"].
Proof. repeat split; vm_compute; reflexivity. Qed.

(** ** Listing *)

#[global] Instance field_is_dec key want t : Decision (field_is key want t).
Proof. destruct want; simpl; apply _. Defined.

#[global] Instance passes_dec status priority t :
  Decision (passes status priority t).
Proof. unfold passes. apply _. Defined.

Lemma filter_by_tasks key s ts :
  tasks ts -> In key fields ->
  filter_by key (VStr s) ts = Ok (filter (field_is key (Some s)) ts).
Proof.
  intros Hts Hk. induction Hts as [|t ts Ht _ IH]; simpl; [reflexivity|].
  destruct (task_has_field t key Ht Hk) as [v Hv].
  unfold getitem. rewrite Hv. simpl. rewrite IH. simpl.
  rewrite filter_cons. unfold py_eq. simpl.
  case_bool_decide; case_decide; try reflexivity;
    unfold field_is in *; exfalso; naive_solver.
Qed.

Lemma tasks_filter (P : todo -> Prop) `{forall t, Decision (P t)} ts :
  tasks ts -> tasks (filter P ts).
Proof.
  unfold tasks. rewrite !Forall_forall. intros Hts t Ht.
  apply Hts. apply list_elem_of_filter in Ht. tauto.
Qed.

(** One filtering step of [list_todos], for a filter that is absent or a
    string other than [""]. *)
Lemma filter_step key (want : option string) ts w :
  want <> Some "" -> tasks ts -> In key fields ->
  (if truthy (of_opt want) then lift (filter_by key (of_opt want) ts)
   else ret ts) w = (Ok (filter (field_is key want) ts), w).
Proof.
  intros Hw Hts Hk. destruct want as [s|]; simpl.
  - destruct (String.eqb_spec s ""); [congruence|]. simpl.
    unfold lift. by rewrite filter_by_tasks.
  - unfold ret. f_equal. f_equal. clear. induction ts as [|t ts IH]; [reflexivity|].
    rewrite filter_cons. simpl. by rewrite <- IH.
Qed.

Lemma list_item_task t : is_task t = true -> list_item t = Ok (OutListItem t).
Proof.
  intros H. unfold list_item, getitem.
  destruct (is_task_field t "status" H) as (st & -> & Hst); [simpl; tauto|].
  destruct (is_task_field t "priority" H) as (p & -> & Hp); [simpl; tauto|].
  destruct (task_has_field t "id" H) as [? ->]; [simpl; tauto|].
  destruct (task_str_field t "title" H) as [? ->]; [simpl; tauto|].
  destruct (task_str_field t "description" H) as [? ->]; [simpl; tauto|].
  destruct (task_str_field t "created_at" H) as [? ->]; [simpl; tauto|].
  destruct (is_task_field t "due_date" H) as (due & -> & _); [simpl; tauto|].
  destruct (is_task_field t "completed_at" H) as (c & -> & Hc); [simpl; tauto|].
  simpl. unfold priority_icon.
  assert (py_eq p (VStr "high") || py_eq p (VStr "medium") || py_eq p (VStr "low")
          = true) as ->.
  { change (py_eq p (VStr "low") || py_eq p (VStr "medium")
            || py_eq p (VStr "high") = true) in Hp.
    destruct (py_eq p (VStr "low")), (py_eq p (VStr "medium")),
      (py_eq p (VStr "high")); simpl in *; congruence. }
  simpl. destruct st as [| |st]; try discriminate. simpl.
  destruct c as [| |c]; try discriminate; simpl; [reflexivity|].
  destruct (negb _); reflexivity.
Qed.

(** C10: on a list of well-formed tasks, for every optional status filter
    and every optional priority filter, [list_todos] returns normally,
    changes nothing, and prints exactly the todos that pass all the supplied
    filters, in the order of the list; with no filter these are all the
    todos. *)
Theorem list_todos_filters status priority w :
  tasks (todos w) ->
  let shown := filter (passes status priority) (todos w) in
  list_todos (status_name <$> status) (priority_name <$> priority) w =
    (Ok tt, World (todos w) (file w) (trace w ++ map Stdout (list_lines shown))) /\
  (status = None -> priority = None -> shown = todos w).
Proof.
  intros Hts shown. split.
  - unfold list_todos, bind at 1, get_todos. unfold bind at 1.
    rewrite filter_step; [|by destruct status as [[]|]|exact Hts|simpl; tauto].
    unfold bind at 1.
    rewrite filter_step;
      [|by destruct priority as [[]|]|by apply tasks_filter|simpl; tauto].
    rewrite list_filter_filter.
    assert (filter (fun t => field_is "priority" (priority_name <$> priority) t /\
                             field_is "status" (status_name <$> status) t)
                   (todos w) = shown) as ->.
    { subst shown. apply list_filter_iff. intros t. unfold passes. tauto. }
    assert (tasks shown) as Hs by (by apply tasks_filter).
    destruct shown as [|t ms] eqn:E; [reflexivity|].
    unfold bind, print at 1.
    rewrite (for_each_print list_item OutListItem).
    + simpl. rewrite <- app_assoc. simpl. by rewrite map_map.
    + eapply Forall_impl; [exact Hs|]. intros u Hu. by apply list_item_task.
  - intros -> ->. subst shown. clear. induction (todos w) as [|t ts IH];
      [reflexivity|].
    rewrite filter_cons, IH. rewrite decide_True; [reflexivity|].
    split; exact I.
Qed.

Lemma list_todos_filters_witness :
  tasks (todos two_todos) /\
  list_todos (Some "completed") (Some "low") two_todos =
    (Ok tt, World (todos two_todos) (file two_todos)
              (trace two_todos ++
               map Stdout (list_lines
                 (filter (passes (Some Completed) (Some Low)) (todos two_todos))))).
Proof.
  assert (tasks (todos two_todos)) as H by (repeat constructor).
  split; [exact H|].
  apply (list_todos_filters (Some Completed) (Some Low) two_todos H).
Defined.

(** ** Statistics *)

Lemma raises_only_ret {A} P (a : A) : raises_only P (ret a).
Proof. intros w e. discriminate. Qed.

Lemma raises_only_print P l : raises_only P (print l).
Proof. intros w e. discriminate. Qed.

Lemma raises_only_get_todos P : raises_only P get_todos.
Proof. intros w e. discriminate. Qed.

Lemma raises_only_lift {A} (P : exn -> Prop) (r : result A) :
  (forall e, r = Raise e -> P e) -> raises_only P (lift r).
Proof. intros H w e. apply H. Qed.

Lemma raises_only_bind {A B} P (c : M A) (k : A -> M B) :
  raises_only P c -> (forall a, raises_only P (k a)) -> raises_only P (bind c k).
Proof.
  intros Hc Hk w e. unfold bind. specialize (Hc w).
  destruct (c w) as [[a|e'] w1]; simpl in *; [apply Hk|].
  intros [= <-]. by apply Hc.
Qed.

Lemma raises_only_for_each {A} P (body : A -> M unit) xs :
  (forall x, raises_only P (body x)) -> raises_only P (for_each body xs).
Proof.
  intros Hb. induction xs as [|x xs IH]; simpl.
  - apply raises_only_ret.
  - apply raises_only_bind; [apply Hb | intros _; exact IH].
Qed.

Lemma filter_by_raises key v ts e :
  filter_by key v ts = Raise e -> e = KeyError (VStr key).
Proof.
  induction ts as [|t ts IH]; simpl; [discriminate|].
  unfold getitem. destruct (t !! key); simpl; [|congruence].
  destruct (filter_by key v ts); simpl; [discriminate|].
  intros [= <-]. by apply IH.
Qed.

Lemma priority_breakdown_raises ts acc e :
  priority_breakdown ts acc = Raise e -> e = KeyError (VStr "priority").
Proof.
  revert acc. induction ts as [|t ts IH]; intros acc; simpl; [discriminate|].
  unfold getitem. destruct (t !! "priority"); simpl; [apply IH | congruence].
Qed.

Lemma priority_line_raises entry e :
  priority_line entry = Raise e -> e = AttributeError.
Proof. destruct entry as [[| |p] n]; simpl; congruence. Qed.

Lemma truediv_positive completed total :
  (0 < total)%nat ->
  truediv (Z.of_nat completed) (Z.of_nat total) =
  Ok (SFdiv prec emax (float_of_int (Z.of_nat completed))
                      (float_of_int (Z.of_nat total))).
Proof.
  intros H. unfold truediv.
  destruct (Z.eqb_spec (Z.of_nat total) 0); [lia | reflexivity].
Qed.

(** The division of [rate_line] is guarded: the line is always computed. *)
Lemma rate_line_total completed total :
  exists l, rate_line completed total = Ok l /\
    (total = 0%nat -> l = OutNoRate) /\
    ((0 < total)%nat ->
     exists rate, completion_rate completed total = Ok rate /\
                  l = OutCompletionRate rate).
Proof.
  unfold rate_line. destruct (Nat.ltb_spec 0 total) as [H|H].
  - unfold completion_rate. rewrite truediv_positive by exact H. simpl.
    eexists. split; [reflexivity|]. split; [lia|]. intros _. eauto.
  - exists OutNoRate. split; [reflexivity|]. split; [reflexivity | lia].
Qed.

(** *** Digits *)

(** Powers are opaque to the arithmetic of [lia]. *)
Ltac hide_powers :=
  repeat match goal with
         | |- context [Z.pow ?a ?b] =>
             let x := fresh "pw" in set (x := Z.pow a b) in *; clearbody x
         | H : context [Z.pow ?a ?b] |- _ =>
             let x := fresh "pw" in set (x := Z.pow a b) in *; clearbody x
         end.

Lemma digits2_pos_bounds p :
  2 ^ (Z.pos (digits2_pos p) - 1) <= Z.pos p < 2 ^ Z.pos (digits2_pos p).
Proof.
  induction p as [p IH|p IH|]; simpl digits2_pos.
  - rewrite Pos2Z.inj_succ. change (Z.pos p~1) with (2 * Z.pos p + 1).
    replace (Z.succ (Z.pos (digits2_pos p)) - 1)
      with (Z.succ (Z.pos (digits2_pos p) - 1)) by lia.
    rewrite !Z.pow_succ_r by lia. hide_powers. lia.
  - rewrite Pos2Z.inj_succ. change (Z.pos p~0) with (2 * Z.pos p).
    replace (Z.succ (Z.pos (digits2_pos p)) - 1)
      with (Z.succ (Z.pos (digits2_pos p) - 1)) by lia.
    rewrite !Z.pow_succ_r by lia. hide_powers. lia.
  - simpl. lia.
Qed.

Lemma Zdigits2_unique z k :
  2 ^ (k - 1) <= z < 2 ^ k -> 0 < z -> Zdigits2 z = k.
Proof.
  intros Hz Hpos. destruct z as [|p|p]; try lia. simpl.
  pose proof (digits2_pos_bounds p) as Hd.
  set (d := Z.pos (digits2_pos p)) in *.
  assert (0 < k) as Hk.
  { destruct (Z_lt_le_dec 0 k) as [|Hk]; [assumption|].
    assert (2 ^ k <= 2 ^ 0) by (apply Z.pow_le_mono_r; lia).
    simpl in *. lia. }
  destruct (Z.lt_trichotomy d k) as [H|[H|H]]; [|exact H|].
  - assert (2 ^ d <= 2 ^ (k - 1)) by (apply Z.pow_le_mono_r; lia).
    hide_powers. lia.
  - assert (2 ^ k <= 2 ^ (d - 1)) by (apply Z.pow_le_mono_r; lia).
    hide_powers. lia.
Qed.

(** The powers that bound a mantissa of 53 digits, as numbers. *)
Ltac mantissa_bounds :=
  change (2 ^ 53) with 9007199254740992 in *;
  change (2 ^ 52) with 4503599627370496 in *.

(** *** Shifting with the round and sticky bits *)

Lemma shr_1_located num den mrs :
  located num den mrs -> located num (2 * den) (shr_1 mrs).
Proof.
  destruct mrs as [m r s]. unfold located. simpl.
  intros (Hden & Hm & Hf & Hr & Hs).
  set (f := num - m * den) in *.
  assert (r || s = negb (f =? 0)) as Hrs.
  { subst r s. destruct (Z.eqb_spec f 0), (Z.leb_spec den (2 * f)),
      (Z.eqb_spec (2 * f) den); simpl; try reflexivity; lia. }
  destruct m as [|[p|p|]|p]; try lia; simpl; rewrite Hrs;
    repeat split; lia.
Qed.

Lemma iter_pos_located n num den mrs :
  located num den mrs ->
  located num (2 ^ Z.pos n * den) (SpecFloat.iter_pos shr_1 n mrs).
Proof.
  revert den mrs. induction n as [n IH|n IH|]; intros den mrs H; simpl SpecFloat.iter_pos.
  - change (Z.pos n~1) with (2 * Z.pos n + 1).
    replace (2 ^ (2 * Z.pos n + 1) * den)
      with (2 ^ Z.pos n * (2 ^ Z.pos n * (2 * den))).
    + apply IH, IH, shr_1_located, H.
    + rewrite Z.pow_add_r, Z.pow_mul_r, Z.pow_2_r, Z.pow_mul_l by lia.
      change (2 ^ 1) with 2. ring.
  - change (Z.pos n~0) with (2 * Z.pos n).
    replace (2 ^ (2 * Z.pos n) * den) with (2 ^ Z.pos n * (2 ^ Z.pos n * den)).
    + apply IH, IH, H.
    + rewrite Z.pow_mul_r, Z.pow_2_r, Z.pow_mul_l by lia. ring.
  - apply shr_1_located, H.
Qed.

Lemma located_div num den mrs :
  located num den mrs ->
  shr_m mrs = num / den /\ num - shr_m mrs * den = num mod den.
Proof.
  intros (Hden & Hm & Hf & _).
  assert (shr_m mrs = num / den) as ->.
  { apply (Z.div_unique num den _ (num - shr_m mrs * den)); lia. }
  split; [reflexivity|]. rewrite Z.mod_eq by lia. ring.
Qed.

Lemma round_located num den mrs :
  located num den mrs ->
  round_nearest_even (shr_m mrs) (loc_of_shr_record mrs) = round_half_even num den.
Proof.
  intros H. destruct (located_div _ _ _ H) as [Hq Hr].
  destruct H as (Hden & Hm & Hf & Hrb & Hsb).
  rewrite Hr in Hrb, Hsb, Hf. unfold round_half_even. rewrite <- Hq.
  destruct mrs as [m r s]. simpl in *. subst r s.
  destruct (Z.ltb_spec (2 * (num mod den)) den),
    (Z.ltb_spec den (2 * (num mod den))),
    (Z.leb_spec den (2 * (num mod den))),
    (Z.eqb_spec (num mod den) 0),
    (Z.eqb_spec (2 * (num mod den)) den); simpl; try reflexivity; lia.
Qed.

Lemma round_half_even_near num den :
  0 < den -> 0 <= num ->
  2 * Z.abs (round_half_even num den * den - num) <= den /\
  num / den <= round_half_even num den <= num / den + 1.
Proof.
  intros Hden Hnum. unfold round_half_even.
  pose proof (Z.div_mod num den ltac:(lia)) as Hdm.
  pose proof (Z.mod_pos_bound num den Hden) as Hr.
  set (q := num / den) in *. set (r := num mod den) in *.
  destruct (Z.ltb_spec (2 * r) den); [nia|].
  destruct (Z.ltb_spec den (2 * r)); [nia|].
  destruct (Z.even q); nia.
Qed.

(** *** The rounding of the binary64 operations *)

Lemma renormalize_spec m e :
  2 ^ 52 <= m <= 2 ^ 53 ->
  2 ^ 52 <= (renormalize m e).1 < 2 ^ 53 /\
  e <= (renormalize m e).2 <= e + 1 /\
  (renormalize m e).1 * 2 ^ ((renormalize m e).2 - e) = m.
Proof.
  intros H. unfold renormalize. destruct (Z.eqb_spec m (2 ^ 53)) as [->|Hne]; simpl.
  - replace (e + 1 - e) with 1 by lia. change (2 ^ 1) with 2.
    mantissa_bounds. lia.
  - replace (e - e) with 0 by lia. change (2 ^ 0) with 1.
    mantissa_bounds. lia.
Qed.

Lemma shr_located mrs e n num den :
  located num den mrs -> 0 <= n ->
  located num (2 ^ n * den) (shr mrs e n).1 /\ (shr mrs e n).2 = e + n.
Proof.
  intros H Hn. destruct n as [|p|p]; try lia.
  - change (2 ^ 0) with 1. rewrite Z.mul_1_l, Z.add_0_r. simpl. auto.
  - simpl. split; [|reflexivity]. by apply iter_pos_located.
Qed.

(** [binary_round_aux] on a mantissa of at least 53 digits, in the range of
    the normal numbers: the located number is rounded to 53 digits, to the
    nearest, ties to even. *)
Lemma binary_round_aux_located mx ex l num den :
  located num den (shr_record_of_loc mx l) ->
  shr_m (shr_record_of_loc mx l) = mx ->
  53 <= Zdigits2 mx ->
  -1021 <= Zdigits2 mx + ex <= 1023 ->
  let n := Zdigits2 mx - 53 in
  let r := round_half_even num (2 ^ n * den) in
  binary_round_aux 53 1024 false mx ex l = positive_float (renormalize r (ex + n)) /\
  2 ^ 52 <= r <= 2 ^ 53.
Proof.
  intros Hloc Hm Hd He n r.
  assert (0 < mx) as Hmx.
  { destruct Hloc as (_ & H0 & _). rewrite Hm in H0.
    destruct mx as [|p|p]; simpl in Hd; lia. }
  assert (2 ^ (Zdigits2 mx - 1) <= mx < 2 ^ Zdigits2 mx) as Hdig.
  { destruct mx as [|p|p]; try lia. apply digits2_pos_bounds. }
  assert (0 <= n) as Hn by (subst n; lia).
  unfold binary_round_aux, shr_fexp.
  replace (fexp 53 1024 (Zdigits2 mx + ex) - ex) with n
    by (unfold fexp, emin; subst n; lia).
  destruct (shr_located _ ex n _ _ Hloc Hn) as [Hloc' He'].
  destruct (shr (shr_record_of_loc mx l) ex n) as [mrs' e'] eqn:Hshr.
  simpl in Hloc', He'. subst e'.
  rewrite (round_located _ _ _ Hloc'). fold r.
  (* the size of the rounded mantissa *)
  assert (num / den = mx) as Hq.
  { destruct (located_div _ _ _ Hloc) as [Hq _]. congruence. }
  assert (0 < den) as Hden by apply Hloc.
  assert (0 <= num) as Hnum.
  { destruct Hloc as (_ & _ & Hf & _). rewrite Hm in Hf. nia. }
  assert (0 < 2 ^ n) as Hpn by (apply Z.pow_pos_nonneg; lia).
  assert (2 ^ 52 <= num / (2 ^ n * den) < 2 ^ 53) as Hq'.
  { rewrite (Z.mul_comm (2 ^ n)), <- Z.div_div, Hq by lia.
    assert (2 ^ Zdigits2 mx = 2 ^ 53 * 2 ^ n) as E1
      by (rewrite <- Z.pow_add_r by lia; f_equal; subst n; lia).
    assert (2 ^ (Zdigits2 mx - 1) = 2 ^ 52 * 2 ^ n) as E2
      by (rewrite <- Z.pow_add_r by lia; f_equal; subst n; lia).
    rewrite E1, E2 in Hdig. split.
    - apply Z.div_le_lower_bound; lia.
    - apply Z.div_lt_upper_bound; lia. }
  assert (2 ^ 52 <= r <= 2 ^ 53) as Hr.
  { destruct (round_half_even_near num (2 ^ n * den)) as [_ H]; [lia | lia |].
    fold r in H. lia. }
  split; [|exact Hr].
  unfold renormalize. destruct (Z.eqb_spec r (2 ^ 53)) as [->|Hne].
  - replace (fexp 53 1024 (Zdigits2 (2 ^ 53) + (ex + n)) - (ex + n)) with 1
      by (change (Zdigits2 (2 ^ 53)) with 54; unfold fexp, emin; subst n; lia).
    simpl. destruct (Z.leb_spec (ex + n + 1) (1024 - 53)); [reflexivity|].
    subst n. lia.
  - assert (Zdigits2 r = 53) as Hdr.
    { apply Zdigits2_unique; [|lia]. replace (53 - 1) with 52 by lia. lia. }
    rewrite Hdr.
    replace (fexp 53 1024 (53 + (ex + n)) - (ex + n)) with 0
      by (unfold fexp, emin; subst n; lia).
    simpl. destruct r as [|p|p]; try lia. simpl.
    destruct (Z.leb_spec (ex + n) (1024 - 53)); [reflexivity|].
    subst n. lia.
Qed.

(** [float(n)], round to nearest even. *)
Lemma round_half_even_one x : round_half_even x 1 = x.
Proof.
  unfold round_half_even. rewrite Z.div_1_r, Z.mod_1_r. reflexivity.
Qed.

Lemma located_exact m : 0 <= m -> located m 1 (shr_record_of_loc m loc_Exact).
Proof. intros H. unfold located. simpl. repeat split; lia. Qed.

Lemma pos_iter_xO p k : Z.pos (Pos.iter xO p k) = Z.pos p * 2 ^ Z.pos k.
Proof.
  revert p. induction k as [|k IH] using Pos.peano_ind; intros p.
  - change (2 ^ 1) with 2. simpl. lia.
  - rewrite Pos.iter_succ, Pos2Z.inj_succ, Z.pow_succ_r by lia.
    change (Z.pos (Pos.iter xO p k)~0) with (2 * Z.pos (Pos.iter xO p k)).
    rewrite IH. ring.
Qed.

Lemma Zdigits2_range n :
  0 < n < 2 ^ 53 -> 1 <= Zdigits2 n <= 53.
Proof.
  intros Hn. destruct n as [|p|p]; try lia. simpl.
  pose proof (digits2_pos_bounds p) as Hd. split; [lia|].
  destruct (Z_le_gt_dec (Z.pos (digits2_pos p)) 53) as [|Hgt]; [assumption|].
  assert (2 ^ 53 <= 2 ^ (Z.pos (digits2_pos p) - 1))
    by (apply Z.pow_le_mono_r; lia).
  lia.
Qed.

Lemma mantissa_bounds_of n :
  0 < n < 2 ^ 53 -> 2 ^ 52 <= mantissa n < 2 ^ 53.
Proof.
  intros Hn. pose proof (Zdigits2_range n Hn) as Hd. unfold mantissa.
  assert (2 ^ (Zdigits2 n - 1) <= n < 2 ^ Zdigits2 n) as Hdig.
  { destruct n as [|p|p]; try lia. apply digits2_pos_bounds. }
  set (d := Zdigits2 n) in *.
  assert (0 < 2 ^ (53 - d)) by (apply Z.pow_pos_nonneg; lia).
  replace (2 ^ 52) with (2 ^ (d - 1) * 2 ^ (53 - d))
    by (rewrite <- Z.pow_add_r by lia; f_equal; lia).
  replace (2 ^ 53) with (2 ^ d * 2 ^ (53 - d))
    by (rewrite <- Z.pow_add_r by lia; f_equal; lia).
  split; [apply Z.mul_le_mono_nonneg_r | apply Z.mul_lt_mono_pos_r]; lia.
Qed.

Lemma float_of_int_exact n :
  0 < n < 2 ^ 53 ->
  float_of_int n = positive_float (mantissa n, Zdigits2 n - 53).
Proof.
  intros Hn. pose proof (Zdigits2_range n Hn) as Hd.
  pose proof (mantissa_bounds_of n Hn) as Hm. unfold mantissa in *.
  destruct n as [|p|p]; try lia.
  unfold float_of_int, binary_normalize, binary_round, shl_align, prec, emax.
  simpl Zdigits2 in *. set (d := Z.pos (digits2_pos p)) in *.
  replace (fexp 53 1024 (d + 0)) with (d - 53)
    by (unfold fexp, emin; lia).
  assert (forall mz ez, Z.pos mz = Z.pos p * 2 ^ (53 - d) -> ez = d - 53 ->
            binary_round_aux 53 1024 false (Z.pos mz) ez loc_Exact
            = positive_float (Z.pos p * 2 ^ (53 - d), d - 53)) as Hround.
  { intros mz ez Hmz ->. rewrite <- Hmz in *.
    assert (Zdigits2 (Z.pos mz) = 53) as Hdz
      by (apply Zdigits2_unique; [replace (53 - 1) with 52 by lia|]; lia).
    destruct (binary_round_aux_located (Z.pos mz) (d - 53) loc_Exact
                (Z.pos mz) 1) as [-> _];
      [apply located_exact; lia | reflexivity | lia | lia |].
    rewrite Hdz. change (2 ^ (53 - 53) * 1) with 1. rewrite round_half_even_one.
    unfold renormalize. destruct (Z.eqb_spec (Z.pos mz) (2 ^ 53)); [lia|].
    f_equal. f_equal. lia. }
  destruct (d - 53 - 0) as [|k|k] eqn:Hk.
  - apply Hround; [|lia]. replace (53 - d) with 0 by lia. simpl. lia.
  - lia.
  - apply Hround; [|reflexivity]. rewrite pos_iter_xO. f_equal. f_equal. lia.
Qed.

Lemma new_location_located den q r :
  0 < den -> 0 <= q -> 0 <= r < den ->
  located (q * den + r) den (shr_record_of_loc q (new_location den r)) /\
  shr_m (shr_record_of_loc q (new_location den r)) = q.
Proof.
  intros Hden Hq Hr.
  assert (forall l, shr_m (shr_record_of_loc q l) = q) as Hm
    by (intros [|[]]; reflexivity).
  split; [|apply Hm].
  unfold located. rewrite Hm.
  replace (q * den + r - q * den) with r by ring.
  split; [exact Hden|]. split; [exact Hq|]. split; [exact Hr|].
  unfold new_location, new_location_even, new_location_odd.
  destruct (Z.even den) eqn:Hev.
  - destruct (Z.eqb_spec r 0) as [->|Hne]; simpl; [split; lia|].
    destruct (Z.compare_spec (2 * r) den); simpl; split; lia.
  - assert (Z.odd den = true) as Hodd by (rewrite <- Z.negb_even, Hev; reflexivity).
    apply Z.odd_spec in Hodd as [h Hh].
    destruct (Z.eqb_spec r 0) as [->|Hne]; simpl; [split; lia|].
    destruct (Z.compare_spec (2 * r + 1) den); simpl; split; lia.
Qed.

Lemma div_eucl_div_mod a b : Z.div_eucl a b = (a / b, a mod b).
Proof. unfold Z.div, Z.modulo. by destruct (Z.div_eucl a b). Qed.

(** The quotient of two positive floats with mantissas of 53 digits. *)
Lemma SFdiv_positive m1 e1 m2 e2 :
  2 ^ 52 <= m1 < 2 ^ 53 -> 2 ^ 52 <= m2 < 2 ^ 53 ->
  -60 <= e1 <= 0 -> -60 <= e2 <= 0 ->
  let num := m1 * 2 ^ 53 in
  let n := Zdigits2 (num / m2) - 53 in
  let r := round_half_even num (2 ^ n * m2) in
  SFdiv 53 1024 (positive_float (m1, e1)) (positive_float (m2, e2))
    = positive_float (renormalize r (e1 - e2 - 53 + n)) /\
  2 ^ 52 <= r <= 2 ^ 53 /\ 0 <= n <= 1.
Proof.
  intros H1 H2 He1 He2 num n r.
  assert (0 < 2 ^ 52) as Hp by reflexivity.
  destruct m1 as [|p1|p1]; try lia. destruct m2 as [|p2|p2]; try lia.
  unfold positive_float. simpl fst. simpl snd. rewrite !Pos2Z.id.
  unfold SFdiv, SFdiv_core_binary.
  rewrite !(Zdigits2_unique _ 53) by (replace (53 - 1) with 52 by lia; lia).
  replace (Z.min (fexp 53 1024 (53 + e1 - (53 + e2))) (e1 - e2))
    with (e1 - e2 - 53) by (unfold fexp, emin; lia).
  replace (e1 - e2 - (e1 - e2 - 53)) with 53 by lia.
  rewrite Z.shiftl_mul_pow2 by lia. fold num.
  rewrite (div_eucl_div_mod num (Z.pos p2)).
  pose proof (Z.div_mod num (Z.pos p2) ltac:(lia)) as Hdm.
  pose proof (Z.mod_pos_bound num (Z.pos p2) ltac:(lia)) as Hrem.
  set (q := num / Z.pos p2) in *. set (rem := num mod Z.pos p2) in *.
  assert (2 ^ 52 <= q < 2 ^ 54) as Hqb.
  { subst q num. split.
    - apply Z.div_le_lower_bound; [lia|]. mantissa_bounds. nia.
    - apply Z.div_lt_upper_bound; [lia|].
      change (2 ^ 54) with (2 * 2 ^ 53). mantissa_bounds. nia. }
  assert (53 <= Zdigits2 q <= 54) as Hdq.
  { destruct (Z_lt_le_dec q (2 ^ 53)).
    - rewrite (Zdigits2_unique q 53); [lia | | lia].
      replace (53 - 1) with 52 by lia. lia.
    - rewrite (Zdigits2_unique q 54); [lia | | lia].
      replace (54 - 1) with 53 by lia. lia. }
  destruct (new_location_located (Z.pos p2) q rem) as [Hloc Hm]; [lia..|].
  rewrite (Z.mul_comm q), <- Hdm in Hloc.
  destruct (binary_round_aux_located q (e1 - e2 - 53) _ _ _ Hloc Hm)
    as [Hres Hr]; [lia | lia |].
  split; [exact Hres | split; [exact Hr | lia]].
Qed.

(** The product of two positive floats with mantissas of 53 digits. *)
Lemma SFmul_positive m1 e1 m2 e2 :
  2 ^ 52 <= m1 < 2 ^ 53 -> 2 ^ 52 <= m2 < 2 ^ 53 ->
  -200 <= e1 <= 0 -> -200 <= e2 <= 0 ->
  let n := Zdigits2 (m1 * m2) - 53 in
  let r := round_half_even (m1 * m2) (2 ^ n) in
  SFmul 53 1024 (positive_float (m1, e1)) (positive_float (m2, e2))
    = positive_float (renormalize r (e1 + e2 + n)) /\
  2 ^ 52 <= r <= 2 ^ 53 /\ 52 <= n <= 53.
Proof.
  intros H1 H2 He1 He2 n r.
  destruct m1 as [|p1|p1]; try lia. destruct m2 as [|p2|p2]; try lia.
  unfold positive_float. simpl fst. simpl snd. rewrite !Pos2Z.id.
  unfold SFmul. simpl xorb. rewrite Pos2Z.inj_mul.
  set (mx := Z.pos p1 * Z.pos p2) in *.
  assert (2 ^ 104 <= mx < 2 ^ 106) as Hmx.
  { subst mx. change (2 ^ 104) with (2 ^ 52 * 2 ^ 52).
    change (2 ^ 106) with (2 ^ 53 * 2 ^ 53). mantissa_bounds. nia. }
  assert (105 <= Zdigits2 mx <= 106) as Hd.
  { destruct (Z_lt_le_dec mx (2 ^ 105)).
    - rewrite (Zdigits2_unique mx 105); [lia | | lia].
      replace (105 - 1) with 104 by lia. lia.
    - rewrite (Zdigits2_unique mx 106); [lia | | lia].
      replace (106 - 1) with 105 by lia. lia. }
  destruct (binary_round_aux_located mx (e1 + e2) loc_Exact mx 1)
    as [Hres Hr]; [apply located_exact; lia | reflexivity | lia | lia |].
  fold n in Hres, Hr. rewrite Z.mul_1_r in Hres, Hr. fold r in Hres, Hr.
  split; [exact Hres | split; [exact Hr | lia]].
Qed.

(** *** The error of [completed / total * 100] *)

(** Products of powers of two with the same value. *)
Ltac same_power := rewrite <- ?Z.pow_add_r by lia; f_equal; lia.

Lemma mul_abs_le_cancel x t p :
  0 < p -> 2 * Z.abs (x * p) <= t * p -> 2 * Z.abs x <= t.
Proof.
  intros Hp H. rewrite Z.abs_mul, (Z.abs_eq p) in H by lia.
  apply (Z.mul_le_mono_pos_r _ _ p Hp). lia.
Qed.

Lemma Zdigits2_mono c t :
  0 < c <= t -> Zdigits2 c <= Zdigits2 t.
Proof.
  intros H. destruct c as [|p|p], t as [|u|u]; try lia. simpl.
  pose proof (digits2_pos_bounds p). pose proof (digits2_pos_bounds u).
  destruct (Z_le_gt_dec (Z.pos (digits2_pos p)) (Z.pos (digits2_pos u)));
    [assumption|].
  assert (2 ^ Z.pos (digits2_pos u) <= 2 ^ (Z.pos (digits2_pos p) - 1))
    by (apply Z.pow_le_mono_r; lia).
  lia.
Qed.

(** [c / t] for integers [0 < c <= t < 2^53]: a float [m * 2^e] within half
    a unit of its last place of the quotient. *)
Lemma truediv_near c t :
  0 < c <= t -> t < 2 ^ 53 ->
  exists m e,
    SFdiv 53 1024 (float_of_int c) (float_of_int t) = positive_float (m, e) /\
    2 ^ 52 <= m < 2 ^ 53 /\ -108 <= e <= -51 /\
    2 * Z.abs (m * t - c * 2 ^ (- e)) <= t.
Proof.
  intros Hc Ht.
  pose proof (Zdigits2_range c ltac:(lia)) as Hdc.
  pose proof (Zdigits2_range t ltac:(lia)) as Hdt.
  pose proof (Zdigits2_mono c t Hc) as Hmono.
  pose proof (mantissa_bounds_of c ltac:(lia)) as Hm1.
  pose proof (mantissa_bounds_of t ltac:(lia)) as Hm2.
  rewrite !float_of_int_exact by lia.
  destruct (SFdiv_positive (mantissa c) (Zdigits2 c - 53)
              (mantissa t) (Zdigits2 t - 53)) as (Hres & Hr & Hn);
    [lia..|].
  set (n := Zdigits2 (mantissa c * 2 ^ 53 / mantissa t) - 53) in *.
  set (r := round_half_even (mantissa c * 2 ^ 53) (2 ^ n * mantissa t)) in *.
  set (e0 := Zdigits2 c - 53 - (Zdigits2 t - 53) - 53 + n) in *.
  destruct (renormalize_spec r e0 Hr) as (Hm & He & Hval).
  destruct (renormalize r e0) as [m e]. simpl in Hm, He, Hval.
  exists m, e. split; [exact Hres|]. split; [exact Hm|].
  split; [subst e0; lia|].
  assert (0 < 2 ^ n * mantissa t) as Hden.
  { apply Z.mul_pos_pos; [apply Z.pow_pos_nonneg|]; lia. }
  destruct (round_half_even_near (mantissa c * 2 ^ 53) (2 ^ n * mantissa t) Hden)
    as [Hnear _]; [nia|].
  fold r in Hnear. rewrite <- Hval in Hnear. unfold mantissa in Hnear.
  set (a := 53 - Zdigits2 c) in *. set (b := 53 - Zdigits2 t) in *.
  set (j := e - e0) in *.
  assert (0 < 2 ^ (n + j + b)) as HP by (apply Z.pow_pos_nonneg; lia).
  apply (mul_abs_le_cancel _ _ (2 ^ (n + j + b)) HP).
  assert (2 ^ a * 2 ^ 53 = 2 ^ (- e) * 2 ^ (n + j + b)) as E1
    by (subst a b j e0; same_power).
  assert (2 ^ j * (2 ^ n * 2 ^ b) = 2 ^ (n + j + b)) as E2
    by (subst a b j e0; same_power).
  assert (2 ^ n * 2 ^ b <= 2 ^ (n + j + b)) as E3.
  { rewrite <- Z.pow_add_r by lia. apply Z.pow_le_mono_r; lia. }
  replace ((m * t - c * 2 ^ (- e)) * 2 ^ (n + j + b))
    with (m * 2 ^ j * (2 ^ n * (t * 2 ^ b)) - c * 2 ^ a * 2 ^ 53).
  - etransitivity; [exact Hnear|].
    replace (2 ^ n * (t * 2 ^ b)) with (t * (2 ^ n * 2 ^ b)) by ring.
    apply Z.mul_le_mono_nonneg_l; lia.
  - rewrite <- E2.
    replace (c * 2 ^ a * 2 ^ 53) with (c * (2 ^ a * 2 ^ 53)) by ring.
    rewrite E1, <- E2. ring.
Qed.

Lemma float_of_int_100 : float_of_int 100 = positive_float (100 * 2 ^ 46, -46).
Proof. reflexivity. Qed.

(** [x * 100] for a float [x = m * 2^e] of 53 digits. *)
Lemma fmul_hundred_near m e :
  2 ^ 52 <= m < 2 ^ 53 -> -108 <= e <= -51 ->
  exists m' e',
    SFmul 53 1024 (positive_float (m, e)) (float_of_int 100) = positive_float (m', e') /\
    2 ^ 52 <= m' < 2 ^ 53 /\ -110 <= e' <= -43 /\
    2 * Z.abs (m' * 2 ^ (- e) - 100 * m * 2 ^ (- e')) <= 2 ^ (- e).
Proof.
  intros Hm He. rewrite float_of_int_100.
  destruct (SFmul_positive m e (100 * 2 ^ 46) (-46)) as (Hres & Hr & Hn);
    [lia | change (100 * 2 ^ 46) with 7036874417766400; mantissa_bounds; lia
    | lia | lia |].
  set (n := Zdigits2 (m * (100 * 2 ^ 46)) - 53) in *.
  set (r := round_half_even (m * (100 * 2 ^ 46)) (2 ^ n)) in *.
  set (e0 := e + -46 + n) in *.
  destruct (renormalize_spec r e0 Hr) as (Hm' & He' & Hval).
  destruct (renormalize r e0) as [m' e']. simpl in Hm', He', Hval.
  exists m', e'. split; [exact Hres|]. split; [exact Hm'|].
  split; [subst e0; lia|].
  assert (0 < 2 ^ n) as Hden by (apply Z.pow_pos_nonneg; lia).
  destruct (round_half_even_near (m * (100 * 2 ^ 46)) (2 ^ n) Hden) as [Hnear _]; [nia|].
  fold r in Hnear. rewrite <- Hval in Hnear.
  set (j := e' - e0) in *.
  assert (0 < 2 ^ 46) as HP by reflexivity.
  apply (mul_abs_le_cancel _ _ (2 ^ 46) HP).
  assert (0 < 2 ^ (- e')) as HD' by (apply Z.pow_pos_nonneg; lia).
  assert (2 ^ (- e) * 2 ^ 46 = 2 ^ j * 2 ^ n * 2 ^ (- e')) as E1
    by (subst j e0; same_power).
  assert (2 ^ n <= 2 ^ j * 2 ^ n) as E3.
  { assert (1 <= 2 ^ j) by (apply (Z.pow_le_mono_r 2 0 j); lia). nia. }
  replace ((m' * 2 ^ (- e) - 100 * m * 2 ^ (- e')) * 2 ^ 46)
    with ((m' * 2 ^ j * 2 ^ n - m * (100 * 2 ^ 46)) * 2 ^ (- e')).
  - rewrite E1, Z.abs_mul, (Z.abs_eq (2 ^ (- e'))) by lia.
    rewrite Z.mul_assoc. apply Z.mul_le_mono_nonneg_r; lia.
  - transitivity (m' * (2 ^ j * 2 ^ n * 2 ^ (- e'))
                  - 100 * m * 2 ^ (- e') * 2 ^ 46); [ring|].
    rewrite <- E1. ring.
Qed.

Lemma round_tenths_half_even m e :
  e < 0 -> round_tenths m e = round_half_even (Z.pos m * 10) (2 ^ (- e)).
Proof.
  intros He. unfold round_tenths, round_half_even.
  destruct (Z.leb_spec 0 e); [lia | reflexivity].
Qed.

(** Three roundings in a row, each within half a unit: the quotient to a
    float [m / d], its product with 100 to a float [m' / d'], and ten times
    that to an integer [k].  For [t <= 2^41] the integer is within a half
    of [1000 * c / t]. *)
Lemma tenths_near c t m d m' d' k :
  0 < c <= t -> t <= 2 ^ 41 ->
  2 ^ 52 <= m -> 2 ^ 52 <= m' -> 0 < d -> 0 < d' ->
  2 * Z.abs (m * t - c * d) <= t ->
  2 * Z.abs (m' * d - 100 * m * d') <= d ->
  2 * Z.abs (k * d' - 10 * m') <= d' ->
  2 * Z.abs (k * t - 1000 * c) <= t.
Proof.
  intros Hc Ht Hm Hm' Hd Hd' HA HB HC.
  change (2 ^ 41) with 2199023255552 in Ht. mantissa_bounds.
  assert (m <= d) as Hmd.
  { assert (c * d <= t * d) by (apply Z.mul_le_mono_nonneg_r; lia).
    assert (2 * m * t <= (2 * d + 1) * t) as H' by lia.
    apply Z.mul_le_mono_pos_r in H'; lia. }
  assert (m' <= 100 * d') as Hmd'.
  { assert (m * d' <= d * d') by (apply Z.mul_le_mono_nonneg_r; lia).
    assert (2 * m' * d <= (200 * d' + 1) * d) as H' by lia.
    apply Z.mul_le_mono_pos_r in H'; lia. }
  set (A := m * t - c * d) in *.
  set (B := m' * d - 100 * m * d') in *.
  set (C := k * d' - 10 * m') in *.
  set (Y := k * t - 1000 * c).
  assert (Y * (d * d') = C * (t * d) + 10 * (B * t) + 1000 * (A * d')) as HY
    by (subst Y A B C; ring).
  destruct (Z_le_gt_dec (2 * Z.abs Y) t) as [|Hgt]; [assumption|exfalso].
  assert (0 < d * d') as Hdd by (apply Z.mul_pos_pos; lia).
  assert (0 < t * d) as Htd by (apply Z.mul_pos_pos; lia).
  assert (2 * Z.abs (C * (t * d)) <= d' * (t * d)) as HC'.
  { rewrite Z.abs_mul, (Z.abs_eq (t * d)), Z.mul_assoc by lia.
    apply Z.mul_le_mono_nonneg_r; lia. }
  assert (2 * Z.abs (B * t) <= d * t) as HB'.
  { rewrite Z.abs_mul, (Z.abs_eq t), Z.mul_assoc by lia.
    apply Z.mul_le_mono_nonneg_r; lia. }
  assert (2 * Z.abs (A * d') <= t * d') as HA'.
  { rewrite Z.abs_mul, (Z.abs_eq d'), Z.mul_assoc by lia.
    apply Z.mul_le_mono_nonneg_r; lia. }
  assert ((t + 1) * (d * d') <= 2 * Z.abs (Y * (d * d'))) as Hlow.
  { rewrite Z.abs_mul, (Z.abs_eq (d * d')) by lia.
    replace (2 * (Z.abs Y * (d * d'))) with (2 * Z.abs Y * (d * d')) by ring.
    apply Z.mul_le_mono_nonneg_r; lia. }
  assert (2000 * t * d < 4503599627370496 * d) as H1
    by (apply Z.mul_lt_mono_pos_r; lia).
  assert (2000 * t * d' < 4503599627370496 * d') as H2
    by (apply Z.mul_lt_mono_pos_r; lia).
  assert (4503599627370496 * d <= 100 * d' * d) as H3
    by (apply Z.mul_le_mono_nonneg_r; lia).
  assert (4503599627370496 * d' <= d * d') as H4
    by (apply Z.mul_le_mono_nonneg_r; lia).
  rewrite HY in Hlow.
  replace (d' * (t * d)) with (t * (d * d')) in HC' by ring.
  replace ((t + 1) * (d * d')) with (t * (d * d') + d * d') in Hlow by ring.
  replace (2000 * t * d) with (2000 * (t * d)) in H1 by ring.
  replace (2000 * t * d') with (2000 * (t * d')) in H2 by ring.
  replace (100 * d' * d) with (100 * (d * d')) in H3 by ring.
  replace (d * t) with (t * d) in HB' by ring.
  set (P := d * d') in *. set (Q := t * d) in *. set (R := t * d') in *.
  set (X1 := C * Q) in *. set (X2 := B * t) in *. set (X3 := A * d') in *.
  set (X4 := t * P) in *.
  clearbody P Q R X1 X2 X3 X4. clear HY HA HB HC. lia.
Qed.

(** *** Decimal text *)

Lemma digit_value_pretty r :
  (r < 10)%N -> digit_value (pretty_N_char r) = Some (Z.of_N r).
Proof.
  intros H.
  assert (r = 0 \/ r = 1 \/ r = 2 \/ r = 3 \/ r = 4 \/ r = 5 \/ r = 6
          \/ r = 7 \/ r = 8 \/ r = 9)%N as Hr by lia.
  destruct Hr as [->|[->|[->|[->|[->|[->|[->|[->|[->| ->]]]]]]]]];
    reflexivity.
Qed.

Lemma number_of_pretty_go x s n :
  number_of s = Some n ->
  number_of (pretty_N_go x s)
  = Some (Z.of_N x * 10 ^ Z.of_nat (String.length s) + n).
Proof.
  revert s n. induction (N.lt_wf_0 x) as [x _ IH]; intros s n Hs.
  destruct (N.eq_dec x 0%N) as [->|Hx].
  - rewrite pretty_N_go_0, Hs. f_equal; lia.
  - rewrite pretty_N_go_step by lia.
    rewrite (IH (x `div` 10)%N) with
      (n := Z.of_N (x `mod` 10) * 10 ^ Z.of_nat (String.length s) + n).
    + f_equal. simpl String.length.
      rewrite Nat2Z.inj_succ, Z.pow_succ_r by lia.
      rewrite N2Z.inj_div, N2Z.inj_mod.
      pose proof (Z.div_mod (Z.of_N x) 10 ltac:(lia)) as Hdm.
      change (Z.of_N 10) with 10.
      set (q := Z.of_N x / 10) in *. set (r := Z.of_N x mod 10) in *.
      rewrite Hdm. ring.
    + apply N.div_lt; lia.
    + simpl. rewrite digit_value_pretty, Hs; [reflexivity|].
      apply N.mod_lt. lia.
Qed.

Lemma number_of_pretty z :
  0 <= z -> number_of (pretty z) = Some z.
Proof.
  intros Hz. destruct z as [|p|p]; try lia; [reflexivity|].
  unfold pretty, pretty_Z, pretty, pretty_positive, pretty, pretty_N.
  rewrite decide_False by lia.
  rewrite (number_of_pretty_go _ "" 0) by reflexivity.
  f_equal. simpl. lia.
Qed.

Lemma tenths_text_denotes k : 0 <= k -> denotes_tenths (tenths_text k) k.
Proof.
  intros Hk. unfold tenths_text.
  pose proof (Z.div_mod k 10 ltac:(lia)) as Hdm.
  pose proof (Z.mod_pos_bound k 10 ltac:(lia)) as Hr.
  assert (0 <= k / 10) as Hq by (apply Z.div_pos; lia).
  assert (forall r, 0 <= r < 10 ->
            exists digit, pretty r = String digit "" /\
                          digit_value digit = Some r) as Hdigit.
  { intros r Hlt.
    assert (r = 0 \/ r = 1 \/ r = 2 \/ r = 3 \/ r = 4 \/ r = 5 \/ r = 6
            \/ r = 7 \/ r = 8 \/ r = 9) as Hcase by lia.
    destruct Hcase as [->|[->|[->|[->|[->|[->|[->|[->|[->| ->]]]]]]]]];
      eexists; split; reflexivity. }
  destruct (Hdigit (k mod 10) Hr) as (digit & Hp & Hv).
  exists (pretty (k / 10)), digit, (k / 10), (k mod 10).
  rewrite Hp. split; [reflexivity|]. split.
  - intros Hempty. pose proof (number_of_pretty (k / 10) Hq) as Hn.
    rewrite Hempty in Hn. injection Hn as Hn. rewrite <- Hn in Hempty.
    discriminate.
  - split; [by apply number_of_pretty|]. split; [exact Hv | lia].
Qed.

(** The rate that [.1f] prints for [completed / total * 100] is a number of
    tenths nearest to the exact rate [1000 * completed / total]. *)
Lemma completion_rate_near completed total :
  (0 < total)%nat -> (completed <= total)%nat ->
  Z.of_nat total <= 2 ^ 41 ->
  exists k,
    completion_rate completed total = Ok (tenths_text k) /\ 0 <= k /\
    2 * Z.abs (k * Z.of_nat total - 1000 * Z.of_nat completed)
      <= Z.of_nat total.
Proof.
  intros Ht Hc Hb. unfold completion_rate, truediv.
  destruct (Z.eqb_spec (Z.of_nat total) 0) as [|_]; [lia|].
  set (c := Z.of_nat completed). set (t := Z.of_nat total).
  assert (0 <= c <= t) as Hct by lia.
  assert (0 < t) as Htpos by lia.
  assert (t <= 2 ^ 41) as Ht41 by exact Hb.
  assert (t < 2 ^ 53) as Ht53.
  { change (2 ^ 41) with 2199023255552 in Hb. mantissa_bounds. lia. }
  clearbody c t. unfold rbind, fmul_int, prec, emax.
  destruct (Z.eq_dec c 0) as [->|Hne].
  - exists 0. rewrite (float_of_int_exact t) by lia.
    rewrite float_of_int_100. split; [reflexivity | lia].
  - destruct (truediv_near c t) as (m & e & -> & Hm & He & HA); [lia | lia |].
    destruct (fmul_hundred_near m e Hm He) as (m' & e' & -> & Hm' & He' & HB).
    unfold positive_float, format_1f, sign_text. simpl fst. simpl snd.
    exists (round_tenths (Z.to_pos m') e').
    assert (0 < m') as Hpos by (mantissa_bounds; lia).
    assert (0 < 2 ^ (- e')) as Hd' by (apply Z.pow_pos_nonneg; lia).
    assert (0 < 2 ^ (- e)) as Hd by (apply Z.pow_pos_nonneg; lia).
    rewrite round_tenths_half_even, Z2Pos.id by lia.
    destruct (round_half_even_near (m' * 10) (2 ^ (- e')) Hd') as [HC Hk]; [lia|].
    split; [reflexivity|]. split.
    + assert (0 <= m' * 10 / 2 ^ (- e')) by (apply Z.div_pos; lia). lia.
    + apply (tenths_near c t m (2 ^ (- e)) m' (2 ^ (- e')));
        try assumption; lia.
Qed.


Lemma count_priority_strs priority acc :
  is_str priority = true -> Forall (fun e => is_str e.1 = true) acc ->
  Forall (fun e => is_str e.1 = true) (count_priority priority acc).
Proof.
  intros Hp. induction 1 as [|[p n] acc Hpn Hacc IH]; simpl.
  - repeat constructor. exact Hp.
  - destruct (py_eq p priority); constructor; assumption.
Qed.

Lemma priority_breakdown_tasks ts acc :
  tasks ts -> Forall (fun e => is_str e.1 = true) acc ->
  exists priorities,
    priority_breakdown ts acc = Ok priorities /\
    Forall (fun e => is_str e.1 = true) priorities.
Proof.
  intros Hts. revert acc.
  induction Hts as [|t ts Ht _ IH]; intros acc Hacc; simpl; [eauto|].
  destruct (is_task_field t "priority" Ht) as (p & Hp & Hadm); [simpl; tauto|].
  unfold getitem. rewrite Hp. simpl. apply IH. apply count_priority_strs; auto.
  change (py_eq p (VStr "low") || py_eq p (VStr "medium")
          || py_eq p (VStr "high") = true) in Hadm.
  unfold py_eq in Hadm. rewrite !orb_true_iff, !bool_decide_eq_true in Hadm.
  destruct Hadm as [[->| ->]| ->]; reflexivity.
Qed.

Lemma priority_lines_strs priorities :
  Forall (fun e => is_str e.1 = true) priorities ->
  exists ls, Forall2 (fun e l => priority_line e = Ok l) priorities ls.
Proof.
  induction 1 as [|[[|z|p] n] ps Hp _ [ls IH]]; try discriminate.
  - exists []. constructor.
  - exists (OutPriorityCount p n :: ls). constructor; [reflexivity | exact IH].
Qed.

Lemma get_statistics_tasks w :
  tasks (todos w) ->
  let total := length (todos w) in
  let completed := length (filter is_completed (todos w)) in
  exists rate breakdown,
    rate_line completed total = Ok rate /\
    get_statistics w =
      (Ok tt, World (todos w) (file w)
         (trace w ++ map Stdout
            ([OutStatsHeader; OutTotal total; OutCompleted completed;
              OutPending (total - completed); rate; OutPriorityHeader]
             ++ breakdown))).
Proof.
  intros Hts total completed.
  destruct (rate_line_total completed total) as (rate & Hrate & _).
  destruct (priority_breakdown_tasks (todos w) [] Hts) as (ps & Hps & Hstr);
    [constructor|].
  destruct (priority_lines_strs ps Hstr) as [ls Hls].
  exists rate, ls. split; [exact Hrate|].
  unfold get_statistics, bind at 1, get_todos. unfold bind at 1, lift at 1.
  rewrite (filter_by_tasks "status" "completed" _ Hts) by (simpl; tauto).
  change (filter (field_is "status" (Some "completed")) (todos w))
    with (filter is_completed (todos w)).
  fold total completed. cbv zeta.
  unfold bind, print, lift. rewrite Hrate, Hps.
  rewrite (for_each_print_lines priority_line ps ls _ Hls).
  simpl. repeat rewrite <- app_assoc. reflexivity.
Qed.

Lemma get_statistics_raises :
  raises_only (fun e => e <> ZeroDivisionError) get_statistics.
Proof.
  unfold get_statistics.
  repeat (apply raises_only_bind; [|intros ?]);
    try apply raises_only_print; try apply raises_only_get_todos.
  - apply raises_only_lift. intros e H.
    apply filter_by_raises in H as ->. discriminate.
  - apply raises_only_lift. intros e H.
    destruct (rate_line_total (length a0) (length a)) as (l & Hl & _). congruence.
  - apply raises_only_lift. intros e H.
    apply priority_breakdown_raises in H as ->. discriminate.
  - apply raises_only_for_each. intros entry.
    apply raises_only_bind; [|intros ?; apply raises_only_print].
    apply raises_only_lift. intros e H.
    apply priority_line_raises in H as ->. discriminate.
Qed.

(** C9, as stated, fails: of 80 todos 23 are completed, a rate of exactly
    28.75 percent.  With one decimal place that is 28.8, whether halves are
    rounded up or to even; [get_statistics] prints 28.7, the lower of the
    two nearest numbers.  Nor are halves rounded down: for 3 of 16, exactly
    18.75 percent, the rate is 18.8. *)
Lemma get_statistics_rate_23_of_80 :
  reachable eighty_todos /\
  length (todos eighty_todos) = 80%nat /\
  length (filter is_completed (todos eighty_todos)) = 23%nat /\
  trace (exec get_statistics (World (todos eighty_todos) None [])) =
    map Stdout [OutStatsHeader; OutTotal 80; OutCompleted 23; OutPending 57;
                OutCompletionRate "28.7"; OutPriorityHeader;
                OutPriorityCount "medium" 80] /\
  denotes_tenths "28.7" 287 /\
  2 * (1000 * 23) = 80 * (2 * 287 + 1) /\
  exact_tenths_half_up 23 80 = 288 /\
  exact_tenths_half_even 23 80 = 288 /\
  completion_rate 3 16 = Ok "18.8" /\
  denotes_tenths "18.8" 188 /\
  2 * (1000 * 3) = 16 * (2 * 188 - 1).
Proof.
  split; [by eexists|].
  split; [vm_compute; reflexivity|]. split; [vm_compute; reflexivity|].
  split; [vm_compute; reflexivity|].
  split; [exists "28", "7"%char, 28, 7; repeat split; discriminate|].
  split; [reflexivity|]. split; [reflexivity|]. split; [reflexivity|].
  split; [vm_compute; reflexivity|].
  split; [exists "18", "8"%char, 18, 8; repeat split; discriminate|].
  reflexivity.
Qed.

(** C9 (amended): [get_statistics] never raises [ZeroDivisionError],
    whatever the list holds.  On the empty list it prints a total of 0 and
    the line "No todos" in place of a rate.  On a non-empty list of at most
    [2^41] well-formed tasks it prints, as the rate, a decimal number with
    one decimal place that is nearest to the exact percentage
    [100 * completed / total]: the two differ by at most 0.05.  When the
    exact percentage lies halfway between two such numbers, either of them
    may be the one printed.  For 1 of 3 the rate is 33.3, for 23 of 80 it
    is 28.7 and for 3 of 16 it is 18.8. *)
Theorem get_statistics_rate :
  (forall w, outcome get_statistics w <> Raise ZeroDivisionError) /\
  (forall f tr,
     get_statistics (World [] f tr) =
       (Ok tt, World [] f
          (tr ++ map Stdout [OutStatsHeader; OutTotal 0; OutCompleted 0;
                             OutPending 0; OutNoRate; OutPriorityHeader]))) /\
  (forall w, tasks (todos w) -> (0 < length (todos w))%nat ->
     Z.of_nat (length (todos w)) <= 2 ^ 41 ->
     let total := length (todos w) in
     let completed := length (filter is_completed (todos w)) in
     exists rate k breakdown,
       get_statistics w =
         (Ok tt, World (todos w) (file w)
            (trace w ++ map Stdout
               ([OutStatsHeader; OutTotal total; OutCompleted completed;
                 OutPending (total - completed); OutCompletionRate rate;
                 OutPriorityHeader] ++ breakdown))) /\
       denotes_tenths rate k /\
       2 * Z.abs (k * Z.of_nat total - 1000 * Z.of_nat completed)
         <= Z.of_nat total) /\
  completion_rate 1 3 = Ok "33.3" /\
  completion_rate 23 80 = Ok "28.7" /\
  completion_rate 3 16 = Ok "18.8".
Proof.
  split; [|split; [|split; [|split; [|split]]]].
  - intros w H. by apply (get_statistics_raises w ZeroDivisionError).
  - intros f tr. unfold get_statistics, bind, get_todos, lift, print. simpl.
    by repeat rewrite <- app_assoc.
  - intros w Hts Hlen Hmax total completed.
    destruct (get_statistics_tasks w Hts) as (rate & ls & Hrate & Hrun).
    fold total completed in Hrate, Hrun.
    assert (completed <= total)%nat as Hle by apply length_filter.
    destruct (completion_rate_near completed total Hlen Hle Hmax)
      as (k & Hk & Hk0 & Hnear).
    unfold rate_line in Hrate.
    rewrite (proj2 (Nat.ltb_lt 0 total) Hlen), Hk in Hrate.
    injection Hrate as <-.
    exists (tenths_text k), k, ls.
    split; [exact Hrun|]. split; [by apply tenths_text_denotes | exact Hnear].
  - vm_compute. reflexivity.
  - vm_compute. reflexivity.
  - vm_compute. reflexivity.
Qed.

Lemma get_statistics_rate_witness :
  tasks (todos three_todos) /\
  (0 < length (todos three_todos))%nat /\
  Z.of_nat (length (todos three_todos)) <= 2 ^ 41 /\
  exists rate k breakdown,
    get_statistics three_todos =
      (Ok tt, World (todos three_todos) (file three_todos)
         (trace three_todos ++ map Stdout
            ([OutStatsHeader; OutTotal (length (todos three_todos));
              OutCompleted (length (filter is_completed (todos three_todos)));
              OutPending (length (todos three_todos)
                          - length (filter is_completed (todos three_todos)));
              OutCompletionRate rate; OutPriorityHeader] ++ breakdown))) /\
    denotes_tenths rate k /\
    2 * Z.abs (k * Z.of_nat (length (todos three_todos))
               - 1000 * Z.of_nat (length (filter is_completed (todos three_todos))))
      <= Z.of_nat (length (todos three_todos)).
Proof.
  assert (tasks (todos three_todos)) as H1 by (repeat constructor).
  assert (0 < length (todos three_todos))%nat as H2 by (vm_compute; lia).
  assert (Z.of_nat (length (todos three_todos)) <= 2 ^ 41) as H3
    by (vm_compute; discriminate).
  split; [exact H1|]. split; [exact H2|]. split; [exact H3|].
  exact (proj1 (proj2 (proj2 get_statistics_rate)) three_todos H1 H2 H3).
Defined.

(** The example of the specification: three todos, one completed. *)
Example get_statistics_three_todos :
  get_statistics (World (todos three_todos) None []) =
    (Ok tt, World (todos three_todos) None
       (map Stdout [OutStatsHeader; OutTotal 3; OutCompleted 1; OutPending 2;
                    OutCompletionRate "33.3"; OutPriorityHeader;
                    OutPriorityCount "high" 1; OutPriorityCount "low" 2])).
Proof. vm_compute. reflexivity. Qed.

(** * Further properties of the program *)

(** ** What a run does to the list and the file *)

Lemma init_loads w :
  init w =
  (Ok tt, World (loaded (file w)) (file w)
            (trace w ++ match file w with
                        | Some (Malformed _) => [Stdout OutErrorReading]
                        | _ => []
                        end)).
Proof.
  unfold init, bind, load_todos, set_todos, ret, print.
  destruct (file w) as [[ts|raw]|] eqn:Hf; simpl; rewrite ?Hf, ?app_nil_r;
    reflexivity.
Qed.

Lemma update_todo_effect now id kwargs w :
  let w' := exec (update_todo now id kwargs) w in
  (todos w' = todos w /\ file w' = file w) \/
  (exists i t, find_todo id (todos w) 0 = Ok (Some (i, t)) /\
     todos w' = <[i := apply_kwargs now kwargs t]> (todos w) /\
     file w' = Some (Document (todos w'))).
Proof.
  unfold exec. destruct (find_todo id (todos w) 0) as [[[i t]|]|e] eqn:Hf.
  - right. exists i, t. rewrite (update_todo_present _ _ _ _ _ _ Hf). auto.
  - left. rewrite (update_todo_absent _ _ _ _ Hf). auto.
  - left. unfold update_todo, bind, get_todos, lift. rewrite Hf. auto.
Qed.

Lemma delete_todo_effect id w :
  let w' := exec (delete_todo id) w in
  (todos w' = todos w /\ file w' = file w) \/
  (exists i t, find_todo id (todos w) 0 = Ok (Some (i, t)) /\
     todos w' = delete i (todos w) /\
     file w' = Some (Document (todos w'))).
Proof.
  unfold exec. destruct (find_todo id (todos w) 0) as [[[i t]|]|e] eqn:Hf.
  - right. exists i, t. rewrite (delete_todo_present _ _ _ _ Hf).
    destruct (getitem t "title"); auto.
  - left. rewrite (delete_todo_absent _ _ Hf). auto.
  - left. unfold delete_todo, bind, get_todos, lift. rewrite Hf. auto.
Qed.

Lemma dispatch_effect now c w :
  todos w = loaded (file w) ->
  let w' := exec (dispatch now c) w in
  effect_of now c (todos w) (todos w') /\ todos w' = loaded (file w').
Proof.
  intros Hw w'.
  assert (forall m : M unit, read_only m ->
            effect_of now c (todos w) (todos (exec m w)) /\
            todos (exec m w) = loaded (file (exec m w))) as Hro.
  { intros m Hm. destruct (Hm w) as [Ht Hf]. unfold exec.
    rewrite Ht, Hf. split; [constructor | exact Hw]. }
  subst w'.
  destruct c as [title d p due|s p|id title d p due|id|id|id|q|]; simpl.
  - split; [constructor | reflexivity].
  - apply Hro, read_only_list_todos.
  - change (update_entry "title" title ++ update_entry "description" d ++
            update_entry "priority" (priority_name <$> p) ++
            update_entry "due_date" due) with (update_data title d p due).
    destruct (update_data title d p due) as [|kv kwargs] eqn:Hk.
    + apply Hro, read_only_print.
    + destruct (update_todo_effect now id (kv :: kwargs) w)
        as [[Ht Hf]|(i & t & Hfind & Ht & Hf)].
      * rewrite Ht, Hf. split; [constructor | exact Hw].
      * rewrite Hf. split; [|reflexivity]. rewrite Ht, <- Hk.
        by constructor.
  - destruct (delete_todo_effect id w) as [[Ht Hf]|(i & t & Hfind & Ht & Hf)].
    + rewrite Ht, Hf. split; [constructor | exact Hw].
    + rewrite Hf. split; [|reflexivity]. rewrite Ht. by econstructor.
  - destruct (update_todo_effect now id [("status", VStr "completed")] w)
      as [[Ht Hf]|(i & t & Hfind & Ht & Hf)]; unfold complete_todo.
    + rewrite Ht, Hf. split; [constructor | exact Hw].
    + rewrite Hf. split; [|reflexivity]. rewrite Ht. by constructor.
  - apply Hro, read_only_show_todo.
  - apply Hro, read_only_search_todos.
  - apply Hro, read_only_get_statistics.
Qed.

Lemma main_effect now c w :
  let w' := exec (main now c) w in
  effect_of now c (loaded (file w)) (todos w') /\ todos w' = loaded (file w').
Proof.
  unfold main, exec, bind. rewrite init_loads.
  set (w0 := World _ _ _).
  apply (dispatch_effect now c w0). reflexivity.
Qed.

(** X1: at the end of every run, whatever the command and whatever the file
    held before, the list in memory is the list that the data file holds:
    the next run loads what this run left. *)
Theorem main_keeps_file_in_step now c w :
  todos (exec (main now c) w) = loaded (file (exec (main now c) w)).
Proof. apply main_effect. Qed.

(** A property of the list that every effect of a run keeps holds in every
    reachable state. *)
Lemma reachable_invariant (P : list todo -> Prop) :
  P [] ->
  (forall now c ts ts', P ts -> effect_of now c ts ts' -> P ts') ->
  forall w, reachable w -> P (todos w).
Proof.
  intros Hnil Hstep w [runs ->].
  assert (forall w0, todos w0 = loaded (file w0) -> P (todos w0) ->
            P (todos (run_all runs w0))) as H.
  { induction runs as [|[now c] runs IH]; intros w0 Hl HP; simpl; [exact HP|].
    destruct (main_effect now c w0) as [He Hl'].
    apply IH; [exact Hl'|]. eapply Hstep; [|exact He]. by rewrite <- Hl. }
  apply H; [reflexivity | exact Hnil].
Qed.

Lemma update_data_keys title d p due key :
  In key (map fst (update_data title d p due)) ->
  key = "title" \/ key = "description" \/ key = "priority" \/ key = "due_date".
Proof.
  unfold update_data. rewrite !map_app, !in_app_iff.
  intros [H|[H|[H|H]]]; apply update_entry_keys in H; auto.
Qed.

(** The stamp [completed_at] changes only by an entry that names it or by
    the entry [status = "completed"]. *)
Lemma apply_kwargs_keeps_stamp now kwargs t :
  ~ In "completed_at" (map fst kwargs) ->
  ~ In ("status", VStr "completed") kwargs ->
  apply_kwargs now kwargs t !! "completed_at" = t !! "completed_at".
Proof.
  unfold apply_kwargs. revert t.
  induction kwargs as [|[key v] kwargs IH]; intros t Hk Hs; simpl; [reflexivity|].
  simpl in Hk, Hs. rewrite IH by tauto.
  unfold apply_kwarg. case_decide; [|reflexivity].
  destruct (String.eqb_spec key "status") as [->|Hne]; simpl.
  - unfold py_eq. case_bool_decide as Hv.
    + subst v. tauto.
    + by rewrite lookup_insert_ne.
  - rewrite lookup_insert_ne; [reflexivity|]. tauto.
Qed.

Lemma update_data_frame now title d p due t field :
  In field ["id"; "status"; "created_at"; "completed_at"] ->
  apply_kwargs now (update_data title d p due) t !! field = t !! field.
Proof.
  intros Hf.
  assert (~ In field (map fst (update_data title d p due))) as Hk.
  { intros H. apply update_data_keys in H. simpl in Hf.
    destruct Hf as [<-|[<-|[<-|[<-|[]]]]]; destruct H as [H|[H|[H|H]]];
      discriminate. }
  destruct (decide (field = "completed_at")) as [->|Hne].
  - apply apply_kwargs_keeps_stamp; [exact Hk|].
    intros H. apply Hk. apply (in_map fst) in H. simpl in H.
    apply update_data_keys in H. destruct H as [H|[H|[H|H]]]; discriminate.
  - by apply apply_kwargs_frame.
Qed.

Lemma identity_insert (ts : list todo) i t t' :
  ts !! i = Some t -> identity t' = identity t ->
  map identity (<[i := t']> ts) = map identity ts.
Proof.
  intros Hi Ht. rewrite <- (list_insert_id ts i t Hi) at 2.
  change (map identity) with (fmap (M := list) identity).
  rewrite !list_fmap_insert. by rewrite Ht.
Qed.

(** X2: no command changes the id or the creation time of a stored todo.
    A run of add appends one todo to the loaded list, a run of delete leaves
    the list or removes one todo, and after a run of any other command the
    todos have the same ids and creation times, in the same order. *)
Theorem main_keeps_identities now c w :
  let ts := loaded (file w) in
  let ts' := todos (exec (main now c) w) in
  match c with
  | CmdAdd title description priority due_date =>
      ts' = ts ++ [new_todo (Z.of_nat (length ts) + 1) title description
                            (priority_name priority) now due_date]
  | CmdDelete id => ts' = ts \/ exists i, (i < length ts)%nat /\ ts' = delete i ts
  | _ => map identity ts' = map identity ts
  end.
Proof.
  intros ts ts'.
  assert (forall id i t kwargs,
            find_todo id ts 0 = Ok (Some (i, t)) ->
            (forall field, In field ["id"; "created_at"] ->
               apply_kwargs now kwargs t !! field = t !! field) ->
            map identity (<[i := apply_kwargs now kwargs t]> ts)
            = map identity ts) as Hedit.
  { intros id i t kwargs Hf Hk. apply find_todo_lookup in Hf.
    apply (identity_insert ts i t _ Hf). unfold identity.
    rewrite !Hk by (simpl; tauto). reflexivity. }
  destruct (main_effect now c w) as [He _]. fold ts ts' in He.
  destruct c as [title d p due|s p|id title d p due|id|id|id|q|].
  - subst ts ts'. unfold main, exec, bind. rewrite init_loads. reflexivity.
  - inversion He; congruence.
  - inversion He as [| |? ? ? ? ? i t ? Hf| |]; subst; [congruence|].
    apply (Hedit id i t (update_data title d p due) Hf). intros field Hin.
    apply update_data_frame. simpl in *. tauto.
  - inversion He as [| | | |? i t ? Hf]; subst; [by left|].
    right. exists i. split; [|reflexivity].
    eapply lookup_lt_Some. by eapply find_todo_lookup.
  - inversion He as [| | |? i t ? Hf|]; subst; [congruence|].
    apply (Hedit id i t [("status", VStr "completed")] Hf). intros field Hin.
    apply apply_kwargs_frame.
    + simpl in Hin. destruct Hin as [<-|[<-|[]]]; discriminate.
    + simpl in *. intros [H|[]]. destruct Hin as [<-|[<-|[]]]; discriminate.
  - inversion He; congruence.
  - inversion He; congruence.
  - inversion He; congruence.
Qed.

(** ** Commands that only print *)

Lemma prints_only_ret {A} (a : A) : prints_only (ret a).
Proof. intros [ts f tr]. exists []. simpl. by rewrite app_nil_r. Qed.

Lemma prints_only_lift {A} (r : result A) : prints_only (lift r).
Proof. intros [ts f tr]. exists []. simpl. by rewrite app_nil_r. Qed.

Lemma prints_only_get_todos : prints_only get_todos.
Proof. intros [ts f tr]. exists []. simpl. by rewrite app_nil_r. Qed.

Lemma prints_only_print l : prints_only (print l).
Proof. intros w. by exists [l]. Qed.

Lemma prints_only_bind {A B} (c : M A) (k : A -> M B) :
  prints_only c -> (forall a, prints_only (k a)) -> prints_only (bind c k).
Proof.
  intros Hc Hk w. unfold bind. destruct (Hc w) as [ls1 H1].
  destruct (c w) as [[a|e] w1]; simpl in *; [|by exists ls1].
  destruct (Hk a w1) as [ls2 H2]. exists (ls1 ++ ls2).
  rewrite H2, H1. simpl. by rewrite map_app, app_assoc.
Qed.

Lemma prints_only_for_each {A} (body : A -> M unit) xs :
  (forall x, prints_only (body x)) -> prints_only (for_each body xs).
Proof.
  intros Hb. induction xs as [|x xs IH]; simpl.
  - apply prints_only_ret.
  - apply prints_only_bind; [apply Hb | intros _; exact IH].
Qed.

Create HintDb prints_only.

#[local] Hint Resolve prints_only_ret prints_only_lift prints_only_print
  prints_only_get_todos prints_only_bind prints_only_for_each : prints_only.

Lemma prints_only_list_todos status priority :
  prints_only (list_todos status priority).
Proof.
  unfold list_todos.
  repeat (apply prints_only_bind; [|intros ?]); auto with prints_only.
  - destruct (truthy _); auto with prints_only.
  - destruct (truthy _); auto with prints_only.
  - destruct a1; auto 6 with prints_only.
Qed.

Lemma prints_only_show_todo todo_id : prints_only (show_todo todo_id).
Proof.
  unfold show_todo.
  repeat (apply prints_only_bind; [|intros ?]); auto with prints_only.
  destruct a0 as [[? ?]|]; auto with prints_only.
Qed.

Lemma prints_only_search_todos query : prints_only (search_todos query).
Proof.
  unfold search_todos.
  repeat (apply prints_only_bind; [|intros ?]); auto with prints_only.
  destruct a0; auto 6 with prints_only.
Qed.

Lemma prints_only_get_statistics : prints_only get_statistics.
Proof.
  unfold get_statistics.
  repeat (apply prints_only_bind; [|intros ?]); auto 6 with prints_only.
Qed.

(** X3: the four querying methods only print.  Whatever the list holds, and
    whether they return or raise, [list_todos], [show_todo], [search_todos]
    and [get_statistics] leave the list and the file as they were and add
    nothing but printed lines to the trace: they never write the file. *)
Theorem queries_only_print :
  (forall status priority, prints_only (list_todos status priority)) /\
  (forall todo_id, prints_only (show_todo todo_id)) /\
  (forall query, prints_only (search_todos query)) /\
  prints_only get_statistics.
Proof.
  split; [exact prints_only_list_todos|].
  split; [exact prints_only_show_todo|].
  split; [exact prints_only_search_todos | exact prints_only_get_statistics].
Qed.

(** ** Invariants of the reachable states *)

Lemma effect_of_ids now c ts ts' :
  ids_from_position ts -> effect_of now c ts ts' -> ids_from_position ts'.
Proof.
  intros Hts He.
  assert (forall id i t kwargs,
            find_todo id ts 0 = Ok (Some (i, t)) ->
            apply_kwargs now kwargs t !! "id" = t !! "id" ->
            ids_from_position (<[i := apply_kwargs now kwargs t]> ts)) as Hedit.
  { intros id i t kwargs Hf Hid k u Hk. apply find_todo_lookup in Hf.
    destruct (decide (k = i)) as [->|Hne].
    - rewrite list_lookup_insert_eq in Hk by (by eapply lookup_lt_Some).
      injection Hk as <-. rewrite Hid. by apply Hts.
    - rewrite list_lookup_insert_ne in Hk by congruence. by apply Hts. }
  destruct He as [c ts|title d p due ts|id title d p due i t ts Hf
                 |id i t ts Hf|id i t ts Hf].
  - exact Hts.
  - intros k t Hk. apply lookup_app_Some in Hk as [Hk|[Hlen Hk]].
    + by apply Hts.
    + apply list_lookup_singleton_Some in Hk as [Hk <-].
      rewrite new_todo_id. eexists. split; [reflexivity | lia].
  - apply (Hedit id i t _ Hf). apply update_data_frame. simpl. tauto.
  - apply (Hedit id i t _ Hf). apply apply_kwargs_frame; [done|].
    simpl. intros [H|[]]. discriminate.
  - intros k u Hk. destruct (decide (k < i)%nat) as [Hlt|Hge].
    + rewrite list_lookup_delete_lt in Hk by exact Hlt. by apply Hts.
    + rewrite list_lookup_delete_ge in Hk by lia.
      destruct (Hts _ _ Hk) as (n & Hn & Hle). exists n. split; [exact Hn | lia].
Qed.

(** X4: in every reachable state the id of each stored todo is an integer
    that is at least the position of the todo in the list (counted from 1);
    ids are therefore positive, and a lookup of an id that is zero or
    negative prints the not-found line and changes nothing. *)
Theorem reachable_ids_positive w :
  reachable w ->
  ids_from_position (todos w) /\
  forall now kwargs todo_id, todo_id <= 0 ->
    show_todo todo_id w = not_found todo_id w /\
    delete_todo todo_id w = not_found todo_id w /\
    update_todo now todo_id kwargs w = not_found todo_id w.
Proof.
  intros Hw.
  assert (ids_from_position (todos w)) as Hids.
  { apply (reachable_invariant ids_from_position); [| |exact Hw].
    - intros k t Hk. by rewrite lookup_nil in Hk.
    - intros now c ts ts'. apply effect_of_ids. }
  split; [exact Hids|]. intros now kwargs todo_id Hid.
  assert (find_todo todo_id (todos w) 0 = Ok None) as Hf.
  { apply find_todo_absent. apply Forall_forall. intros t Ht.
    apply list_elem_of_lookup in Ht as [k Hk].
    destruct (Hids _ _ Hk) as (n & Hn & Hle).
    exists (VInt n). split; [exact Hn|]. intros [= ->]. lia. }
  split; [|split].
  - by apply show_todo_absent.
  - by apply delete_todo_absent.
  - by apply update_todo_absent.
Qed.

Lemma reachable_ids_positive_witness :
  reachable two_todos /\
  ids_from_position (todos two_todos) /\
  show_todo 0 two_todos = not_found 0 two_todos.
Proof.
  assert (reachable two_todos) as H by (eexists; reflexivity).
  split; [exact H|].
  destruct (reachable_ids_positive two_todos H) as [H1 H2].
  split; [exact H1|]. apply (H2 "" [] 0). lia.
Defined.

Lemma new_todo_stamp id title description priority now due_date :
  stamp_agrees (new_todo id title description priority now due_date).
Proof. right. split; reflexivity. Qed.

Lemma effect_of_stamps now c ts ts' :
  Forall stamp_agrees ts -> effect_of now c ts ts' -> Forall stamp_agrees ts'.
Proof.
  intros Hts He.
  destruct He as [c ts|title d p due ts|id title d p due i t ts Hf
                 |id i t ts Hf|id i t ts Hf].
  - exact Hts.
  - apply Forall_app_2; [exact Hts|].
    constructor; [apply new_todo_stamp | constructor].
  - apply Forall_insert; [exact Hts|].
    apply find_todo_lookup in Hf.
    assert (stamp_agrees t) as Ht.
    { rewrite Forall_forall in Hts. apply Hts. by eapply list_elem_of_lookup_2. }
    unfold stamp_agrees.
    rewrite !(update_data_frame now title d p due t) by (simpl; tauto).
    exact Ht.
  - apply Forall_insert; [exact Hts|].
    apply find_todo_lookup in Hf.
    assert (stamp_agrees t) as Ht.
    { rewrite Forall_forall in Hts. apply Hts. by eapply list_elem_of_lookup_2. }
    assert (is_Some (t !! "status")) as Hst.
    { destruct Ht as [[-> _]|[-> _]]; by eexists. }
    rewrite complete_kwargs by exact Hst. left. split.
    + rewrite lookup_insert_ne by done. apply lookup_insert_eq.
    + exists now. apply lookup_insert_eq.
  - by apply Forall_delete.
Qed.

(** X5: in every reachable state the status and the completion stamp of
    every stored todo agree: the status is "completed" and [completed_at]
    holds a time, or the status is "pending" and [completed_at] is [None]. *)
Theorem reachable_stamps_agree w :
  reachable w -> Forall stamp_agrees (todos w).
Proof.
  apply (reachable_invariant (Forall stamp_agrees)).
  - constructor.
  - intros now c ts ts'. apply effect_of_stamps.
Qed.

Lemma reachable_stamps_agree_witness :
  reachable two_todos /\ Forall stamp_agrees (todos two_todos).
Proof.
  assert (reachable two_todos) as H by (eexists; reflexivity).
  split; [exact H | exact (reachable_stamps_agree two_todos H)].
Defined.

(** X6: no command reopens a todo.  After a run of any command other than
    delete, a todo of the loaded list that was completed is still stored at
    the same index and still completed. *)
Theorem completed_stays_completed now c w i t :
  is_delete c = false ->
  loaded (file w) !! i = Some t -> is_completed t ->
  exists t', todos (exec (main now c) w) !! i = Some t' /\ is_completed t'.
Proof.
  intros Hc Hi Ht. destruct (main_effect now c w) as [He _].
  set (ts := loaded (file w)) in *. set (ts' := todos _) in *. clearbody ts ts'.
  assert (forall id j u kwargs,
            find_todo id ts 0 = Ok (Some (j, u)) ->
            (is_completed u -> is_completed (apply_kwargs now kwargs u)) ->
            exists t', <[j := apply_kwargs now kwargs u]> ts !! i = Some t' /\
                       is_completed t') as Hedit.
  { intros id j u kwargs Hf Hk. apply find_todo_lookup in Hf.
    destruct (decide (i = j)) as [->|Hne].
    - rewrite list_lookup_insert_eq by (by eapply lookup_lt_Some).
      eexists. split; [reflexivity|]. apply Hk. congruence.
    - rewrite list_lookup_insert_ne by congruence. eauto. }
  destruct He as [c ts|title d p due ts|id title d p due j u ts Hf
                 |id j u ts Hf|id j u ts Hf].
  - eauto.
  - exists t. split; [|exact Ht]. by apply lookup_app_l_Some.
  - apply (Hedit id j u _ Hf). unfold is_completed.
    by rewrite update_data_frame by (simpl; tauto).
  - apply (Hedit id j u _ Hf). unfold is_completed. intros Hu.
    rewrite complete_kwargs by (by eexists).
    rewrite lookup_insert_ne by done. apply lookup_insert_eq.
  - discriminate.
Qed.

Lemma completed_stays_completed_witness :
  exists t',
    todos (exec (main "2024-05-02T08:00:00"
                   (CmdUpdate 2 (Some "Call Bob back") None (Some High) None))
                two_todos) !! 1%nat = Some t' /\
    is_completed t'.
Proof.
  eapply (completed_stays_completed "2024-05-02T08:00:00"
            (CmdUpdate 2 (Some "Call Bob back") None (Some High) None)
            two_todos 1%nat).
  - reflexivity.
  - reflexivity.
  - reflexivity.
Defined.

(** ** Runs on the states that the program creates *)

Lemma find_todo_tasks todo_id ts i :
  tasks ts -> exists found, find_todo todo_id ts i = Ok found.
Proof.
  intros Hts. revert i. induction Hts as [|t ts Ht _ IH]; intros i; simpl.
  - eauto.
  - destruct (task_has_field t "id" Ht) as [v Hv]; [simpl; tauto|].
    unfold getitem. rewrite Hv. simpl. destruct (py_eq v (VInt todo_id)); eauto.
Qed.

Lemma find_todo_task todo_id ts i j t :
  tasks ts -> find_todo todo_id ts i = Ok (Some (j, t)) -> is_task t = true.
Proof.
  intros Hts Hf.
  destruct (find_todo_found _ _ _ _ _ Hf) as (l1 & l2 & -> & _).
  unfold tasks in Hts. rewrite Forall_app, Forall_cons in Hts. tauto.
Qed.

Lemma details_task t : is_task t = true -> details t = Ok (OutDetails t).
Proof.
  intros H. unfold details, getitem.
  destruct (task_has_field t "id" H) as [? ->]; [simpl; tauto|].
  destruct (task_str_field t "title" H) as [? ->]; [simpl; tauto|].
  destruct (task_str_field t "description" H) as [? ->]; [simpl; tauto|].
  destruct (is_task_field t "status" H) as (st & -> & Hst); [simpl; tauto|].
  destruct (is_task_field t "priority" H) as (p & -> & Hp); [simpl; tauto|].
  destruct (task_str_field t "created_at" H) as [? ->]; [simpl; tauto|].
  destruct (task_has_field t "due_date" H) as [? ->]; [simpl; tauto|].
  destruct (task_has_field t "completed_at" H) as [? ->]; [simpl; tauto|].
  simpl. destruct st as [| |st]; try discriminate.
  destruct p as [| |p]; try discriminate. reflexivity.
Qed.

Lemma show_todo_tasks todo_id w :
  tasks (todos w) ->
  show_todo todo_id w = not_found todo_id w \/
  exists i t, find_todo todo_id (todos w) 0 = Ok (Some (i, t)) /\
    show_todo todo_id w =
      (Ok tt, World (todos w) (file w) (trace w ++ [Stdout (OutDetails t)])).
Proof.
  intros Hts. destruct (find_todo_tasks todo_id (todos w) 0 Hts) as [[[i t]|] Hf].
  - right. exists i, t. split; [exact Hf|].
    unfold show_todo, bind, get_todos, lift. rewrite Hf.
    rewrite (details_task t) by (by eapply find_todo_task). reflexivity.
  - left. by apply show_todo_absent.
Qed.

Lemma list_todos_tasks status priority w :
  status <> Some "" -> priority <> Some "" -> tasks (todos w) ->
  list_todos status priority w =
  (Ok tt, World (todos w) (file w)
     (trace w ++ map Stdout
        (list_lines (filter (field_is "priority" priority)
                            (filter (field_is "status" status) (todos w)))))).
Proof.
  intros Hs Hp Hts.
  unfold list_todos, bind at 1, get_todos. unfold bind at 1.
  rewrite filter_step; [|exact Hs|exact Hts|simpl; tauto].
  unfold bind at 1.
  rewrite filter_step; [|exact Hp|by apply tasks_filter|simpl; tauto].
  set (shown := filter _ (filter _ _)).
  assert (tasks shown) as Hshown by (by do 2 apply tasks_filter).
  destruct shown as [|t ms] eqn:E; [reflexivity|].
  unfold bind, print at 1.
  rewrite (for_each_print list_item OutListItem).
  - simpl. rewrite <- app_assoc. simpl. by rewrite map_map.
  - eapply Forall_impl; [exact Hshown|]. intros u Hu. by apply list_item_task.
Qed.

Lemma search_todos_tasks query w :
  tasks (todos w) ->
  search_todos query w =
  (Ok tt, World (todos w) (file w)
     (trace w ++ map Stdout
        (search_lines query (filter (matches_query query) (todos w))))).
Proof.
  intros Hts.
  unfold search_todos, bind at 1, get_todos. unfold bind at 1, lift.
  rewrite (search_loop_tasks query _ Hts).
  set (matching := filter _ _).
  assert (tasks matching) as Hm by (by apply tasks_filter).
  destruct matching as [|t ms] eqn:E; [reflexivity|].
  unfold bind, print at 1.
  rewrite (for_each_print search_item OutSearchItem).
  - simpl. rewrite <- app_assoc. simpl. by rewrite map_map.
  - eapply Forall_impl; [exact Hm|]. intros u Hu. by apply search_item_task.
Qed.

Lemma dispatch_tasks_returns now c w :
  tasks (todos w) -> outcome (dispatch now c) w = Ok tt.
Proof.
  intros Hts. unfold outcome.
  assert (forall id kwargs, fst (update_todo now id kwargs w) = Ok tt) as Hup.
  { intros id kwargs.
    destruct (find_todo_tasks id (todos w) 0 Hts) as [[[i t]|] Hf].
    - by rewrite (update_todo_present _ _ _ _ _ _ Hf).
    - by rewrite (update_todo_absent _ _ _ _ Hf). }
  destruct c as [title d p due|s p|id title d p due|id|id|id|q|]; simpl.
  - reflexivity.
  - rewrite list_todos_tasks; [reflexivity| | |exact Hts].
    + by destruct s as [[]|].
    + by destruct p as [[]|].
  - destruct (_ ++ _); [reflexivity | apply Hup].
  - destruct (find_todo_tasks id (todos w) 0 Hts) as [[[i t]|] Hf].
    + rewrite (delete_todo_present _ _ _ _ Hf).
      destruct (task_str_field t "title") as [title Ht];
        [by eapply find_todo_task | simpl; tauto|].
      unfold getitem. by rewrite Ht.
    + by rewrite (delete_todo_absent _ _ Hf).
  - apply Hup.
  - destruct (show_todo_tasks id w Hts) as [->|(i & t & _ & ->)]; reflexivity.
  - by rewrite search_todos_tasks.
  - destruct (get_statistics_tasks w Hts) as (rate & ls & _ & ->). reflexivity.
Qed.

(** X7: the program never fails on the states it creates itself.  In every
    reachable state, every command runs to its end without raising an
    exception. *)
Theorem reachable_runs_return w now c :
  reachable w -> outcome (main now c) w = Ok tt.
Proof.
  intros Hw. destruct (reachable_tasks w Hw) as [Hs Hts].
  unfold outcome, main, bind. rewrite (init_synced w Hs).
  apply (dispatch_tasks_returns now c (World (todos w) (file w) (trace w))).
  exact Hts.
Qed.

Lemma reachable_runs_return_witness :
  reachable twice_two /\
  outcome (main "2024-05-02T08:00:00" CmdStats) twice_two = Ok tt.
Proof.
  assert (reachable twice_two) as H.
  { exists [("2024-05-01T09:00:00", CmdAdd "a" "" Medium None);
            ("2024-05-01T09:01:00", CmdAdd "b" "" Medium None);
            ("2024-05-01T09:02:00", CmdDelete 1);
            ("2024-05-01T09:03:00", CmdAdd "c" "" Medium None)].
    reflexivity. }
  split; [exact H|].
  exact (reachable_runs_return twice_two "2024-05-02T08:00:00" CmdStats H).
Defined.

(** ** A data file that is not JSON *)

(** X8: a run that finds a data file whose text is not JSON (the decoder
    raises [JSONDecodeError]) prints the error line first, works on the empty
    list and returns normally.  Only add replaces the file, by a list that
    holds the new todo alone, with the id 1; after any other command the
    file still holds the text that is not JSON. *)
Theorem main_on_malformed_file raw ts tr now c :
  let w := World ts (Some (Malformed raw)) tr in
  let w' := exec (main now c) w in
  outcome (main now c) w = Ok tt /\
  (exists rest, trace w' = tr ++ Stdout OutErrorReading :: rest) /\
  match c with
  | CmdAdd title description priority due_date =>
      todos w' = [new_todo 1 title description (priority_name priority)
                           now due_date] /\
      file w' = Some (Document (todos w'))
  | _ => todos w' = [] /\ file w' = Some (Malformed raw)
  end.
Proof.
  intros w w'. subst w w'. unfold outcome, exec, main, bind.
  rewrite init_loads. simpl.
  destruct c as [title d p due|s p|id title d p due|id|id|id|q|]; simpl.
  - split; [reflexivity|]. split; [|split; reflexivity].
    eexists. rewrite <- !app_assoc. reflexivity.
  - destruct s as [[]|], p as [[]|]; simpl;
      (split; [reflexivity|]; split; [|split; reflexivity]);
      eexists; rewrite <- !app_assoc; reflexivity.
  - destruct (_ ++ _); simpl;
      (split; [reflexivity|]; split; [|split; reflexivity]);
      eexists; rewrite <- !app_assoc; reflexivity.
  - split; [reflexivity|]. split; [|split; reflexivity].
    eexists. rewrite <- !app_assoc. reflexivity.
  - split; [reflexivity|]. split; [|split; reflexivity].
    eexists. rewrite <- !app_assoc. reflexivity.
  - split; [reflexivity|]. split; [|split; reflexivity].
    eexists. rewrite <- !app_assoc. reflexivity.
  - split; [reflexivity|]. split; [|split; reflexivity].
    eexists. rewrite <- !app_assoc. reflexivity.
  - split; [reflexivity|]. split; [|split; reflexivity].
    eexists. repeat rewrite <- app_assoc. reflexivity.
Qed.

(** ** Adding, then showing *)

Lemma details_new_todo id title description priority now due_date :
  let t := new_todo id title description priority now due_date in
  details t = Ok (OutDetails t).
Proof. reflexivity. Qed.

(** X9: when no stored todo holds the id that add is about to assign (the
    number of stored todos plus one), showing that id right after the add
    prints the todo just added, which is pending, has no completion time,
    and carries the title, description, priority and due date given. *)
Theorem add_todo_then_show now title description priority due_date w :
  let id := Z.of_nat (length (todos w)) + 1 in
  Forall (other_id id) (todos w) ->
  let w1 := exec (add_todo now title description priority due_date) w in
  exists t,
    show_todo id w1 =
      (Ok tt, World (todos w1) (file w1) (trace w1 ++ [Stdout (OutDetails t)])) /\
    t !! "title" = Some (VStr title) /\
    t !! "description" = Some (VStr description) /\
    t !! "priority" = Some (VStr priority) /\
    t !! "due_date" = Some (of_opt due_date) /\
    t !! "created_at" = Some (VStr now) /\
    t !! "status" = Some (VStr "pending") /\
    t !! "completed_at" = Some VNone.
Proof.
  intros id Hids w1.
  set (t := new_todo id title description priority now due_date).
  exists t. split; [|by repeat split].
  assert (todos w1 = todos w ++ [t]) as Ew by reflexivity.
  assert (find_todo id (todos w1) 0 = Ok (Some (length (todos w), t))) as Hf.
  { rewrite Ew. apply (find_todo_first id (todos w) [] t 0 Hids).
    apply new_todo_id. }
  unfold show_todo, bind, get_todos, lift. rewrite Hf.
  subst t. by rewrite details_new_todo.
Qed.

Lemma add_todo_then_show_witness :
  Forall (other_id 2) (todos one_todo) /\
  exists t,
    show_todo 2 (exec (add_todo "2024-05-02T08:00:00" "b" "x" "low"
                                (Some "2024-06-01")) one_todo) =
      (Ok tt,
       World (todos (exec (add_todo "2024-05-02T08:00:00" "b" "x" "low"
                                    (Some "2024-06-01")) one_todo))
             (file (exec (add_todo "2024-05-02T08:00:00" "b" "x" "low"
                                   (Some "2024-06-01")) one_todo))
             (trace (exec (add_todo "2024-05-02T08:00:00" "b" "x" "low"
                                    (Some "2024-06-01")) one_todo)
              ++ [Stdout (OutDetails t)])) /\
    t !! "title" = Some (VStr "b") /\
    t !! "description" = Some (VStr "x") /\
    t !! "priority" = Some (VStr "low") /\
    t !! "due_date" = Some (VStr "2024-06-01") /\
    t !! "created_at" = Some (VStr "2024-05-02T08:00:00") /\
    t !! "status" = Some (VStr "pending") /\
    t !! "completed_at" = Some VNone.
Proof.
  assert (Forall (other_id 2) (todos one_todo)) as H.
  { repeat constructor. exists (VInt 1). split; [reflexivity | discriminate]. }
  split; [exact H|].
  exact (add_todo_then_show "2024-05-02T08:00:00" "b" "x" "low"
           (Some "2024-06-01") one_todo H).
Defined.

(** ** Updates *)

Lemma apply_kwargs_unknown now kwargs (t : todo) :
  Forall (fun kv => t !! kv.1 = None) kwargs -> apply_kwargs now kwargs t = t.
Proof.
  unfold apply_kwargs. induction 1 as [|[key v] kwargs Hk _ IH];
    [reflexivity|].
  cbn [fold_left].
  assert (apply_kwarg now t (key, v) = t) as ->; [|exact IH].
  unfold apply_kwarg. simpl in Hk. case_decide as Hd; [|reflexivity].
  rewrite Hk in Hd. by destruct Hd.
Qed.

(** X10: [update_todo] ignores every change whose key the todo does not
    have.  When the todo has none of the keys, the list stays as it was, and
    the call still writes the file and prints that the todo was updated. *)
Theorem update_todo_ignores_unknown_keys now todo_id kwargs w i t :
  find_todo todo_id (todos w) 0 = Ok (Some (i, t)) ->
  Forall (fun kv => t !! kv.1 = None) kwargs ->
  update_todo now todo_id kwargs w =
  (Ok tt, World (todos w) (Some (Document (todos w)))
            ((trace w ++ [FileWrite (todos w)]) ++ [Stdout (OutUpdated todo_id)])).
Proof.
  intros Hf Hk. rewrite (update_todo_present _ _ _ _ _ _ Hf). cbv zeta.
  rewrite (apply_kwargs_unknown now kwargs t Hk).
  rewrite list_insert_id by (by eapply find_todo_lookup). reflexivity.
Qed.

Lemma update_todo_ignores_unknown_keys_witness :
  update_todo "2024-05-02T08:00:00" 1 [("owner", VStr "bob")] one_todo =
  (Ok tt, World (todos one_todo) (Some (Document (todos one_todo)))
            ((trace one_todo ++ [FileWrite (todos one_todo)])
             ++ [Stdout (OutUpdated 1)])).
Proof.
  apply (update_todo_ignores_unknown_keys "2024-05-02T08:00:00" 1
           [("owner", VStr "bob")] one_todo 0%nat
           (new_todo 1 "a" "" "medium" "2024-05-01T09:00:00" None)).
  - reflexivity.
  - repeat constructor.
Defined.

(** X11: [update_todo] changes the completion stamp only through a change
    named [completed_at] or through the change [status = "completed"].  In
    particular a change of the status to another value leaves the stamp of a
    completed todo in place. *)
Theorem update_todo_keeps_stamp now todo_id kwargs w i t :
  find_todo todo_id (todos w) 0 = Ok (Some (i, t)) ->
  ~ In "completed_at" (map fst kwargs) ->
  ~ In ("status", VStr "completed") kwargs ->
  exists t',
    todos (exec (update_todo now todo_id kwargs) w) !! i = Some t' /\
    t' !! "completed_at" = t !! "completed_at".
Proof.
  intros Hf Hk Hs. exists (apply_kwargs now kwargs t). split.
  - unfold exec. rewrite (update_todo_present _ _ _ _ _ _ Hf). simpl.
    apply list_lookup_insert_eq. eapply lookup_lt_Some.
    by eapply find_todo_lookup.
  - by apply apply_kwargs_keeps_stamp.
Qed.

Lemma update_todo_keeps_stamp_witness :
  exists t',
    todos (exec (update_todo "2024-05-02T08:00:00" 2
                   [("status", VStr "pending")]) two_todos) !! 1%nat = Some t' /\
    t' !! "completed_at" = Some (VStr "2024-05-01T09:02:00").
Proof.
  assert (exists t, find_todo 2 (todos two_todos) 0 = Ok (Some (1%nat, t)) /\
                    t !! "completed_at" = Some (VStr "2024-05-01T09:02:00"))
    as (t & Hf & Hc).
  { eexists. split; reflexivity. }
  destruct (update_todo_keeps_stamp "2024-05-02T08:00:00" 2
              [("status", VStr "pending")] two_todos 1%nat t Hf)
    as (t' & H1 & H2).
  - simpl. intros [H|[]]. discriminate.
  - simpl. intros [H|[]]. discriminate.
  - exists t'. split; [exact H1|]. by rewrite H2.
Defined.

(** X12: completing a todo that is already completed stamps it again: after
    the second call [completed_at] is the time of the second call. *)
Theorem complete_todo_stamps_again now now' todo_id w i t :
  find_todo todo_id (todos w) 0 = Ok (Some (i, t)) ->
  is_Some (t !! "status") ->
  let w1 := exec (complete_todo now todo_id) w in
  let w2 := exec (complete_todo now' todo_id) w1 in
  exists t1 t2,
    todos w1 !! i = Some t1 /\ t1 !! "completed_at" = Some (VStr now) /\
    todos w2 !! i = Some t2 /\ t2 !! "completed_at" = Some (VStr now').
Proof.
  intros Hf Hst w1 w2.
  set (done_at (n : string) (u : todo) :=
         <["completed_at" := VStr n]> (<["status" := VStr "completed"]> u)).
  assert (todos w1 = <[i := done_at now t]> (todos w)) as E1.
  { subst w1. unfold exec, complete_todo.
    rewrite (update_todo_present _ _ _ _ _ _ Hf). cbv zeta.
    by rewrite complete_kwargs. }
  assert (find_todo todo_id (todos w1) 0 = Ok (Some (i, done_at now t))) as Hf1.
  { rewrite E1. apply (find_todo_replaced _ _ _ _ _ Hf).
    destruct (find_todo_found _ _ _ _ _ Hf) as (_ & _ & _ & _ & _ & Ht).
    unfold has_id, done_at. by rewrite !lookup_insert_ne. }
  assert (todos w2 = <[i := done_at now' (done_at now t)]> (todos w1)) as E2.
  { subst w2. unfold exec, complete_todo.
    rewrite (update_todo_present _ _ _ _ _ _ Hf1). cbv zeta.
    rewrite complete_kwargs; [reflexivity|].
    unfold done_at. rewrite lookup_insert_ne by done.
    rewrite lookup_insert_eq. by eexists. }
  exists (done_at now t), (done_at now' (done_at now t)).
  split; [by eapply find_todo_lookup|]. split; [apply lookup_insert_eq|].
  split; [|apply lookup_insert_eq].
  rewrite E2. apply list_lookup_insert_eq. eapply lookup_lt_Some.
  by eapply find_todo_lookup.
Qed.

Lemma complete_todo_stamps_again_witness :
  exists t1 t2,
    todos (exec (complete_todo "2024-05-02T10:00:00" 1) one_todo) !! 0%nat
      = Some t1 /\
    t1 !! "completed_at" = Some (VStr "2024-05-02T10:00:00") /\
    todos (exec (complete_todo "2024-05-03T11:00:00" 1)
             (exec (complete_todo "2024-05-02T10:00:00" 1) one_todo)) !! 0%nat
      = Some t2 /\
    t2 !! "completed_at" = Some (VStr "2024-05-03T11:00:00").
Proof.
  apply (complete_todo_stamps_again "2024-05-02T10:00:00" "2024-05-03T11:00:00"
           1 one_todo 0%nat
           (new_todo 1 "a" "" "medium" "2024-05-01T09:00:00" None)).
  - reflexivity.
  - exists (VStr "pending"). reflexivity.
Defined.

(** X13: the update command treats an option given as the empty string like
    an option that was not given.  When no title, description or due date
    other than the empty string is given and no priority, the command prints
    the line that asks for a field and does nothing else: the id is not
    looked up, so an unknown id is not reported. *)
Theorem dispatch_update_without_fields now id title description due_date w :
  truthy (of_opt title) = false ->
  truthy (of_opt description) = false ->
  truthy (of_opt due_date) = false ->
  dispatch now (CmdUpdate id title description None due_date) w =
  (Ok tt, World (todos w) (file w) (trace w ++ [Stdout OutSpecifyField])).
Proof.
  intros Ht Hd Hdue. simpl. unfold update_entry. rewrite Ht, Hd, Hdue.
  reflexivity.
Qed.

Lemma dispatch_update_without_fields_witness :
  dispatch "2024-05-02T08:00:00" (CmdUpdate 99 (Some "") (Some "") None None)
    one_todo =
  (Ok tt, World (todos one_todo) (file one_todo)
            (trace one_todo ++ [Stdout OutSpecifyField])).
Proof.
  apply (dispatch_update_without_fields "2024-05-02T08:00:00" 99
           (Some "") (Some "") None one_todo); reflexivity.
Defined.

(** ** The counts of the statistics *)

Lemma count_priority_keys q acc k :
  In k (map fst (count_priority q acc)) -> k = q \/ In k (map fst acc).
Proof.
  induction acc as [|[p n] acc IH]; simpl.
  - intros [<-|[]]. by left.
  - destruct (py_eq p q); simpl; [tauto|]. intros [H|H]; [tauto|].
    destruct (IH H); tauto.
Qed.

Lemma count_priority_NoDup q acc :
  NoDup (map fst acc) -> NoDup (map fst (count_priority q acc)).
Proof.
  induction acc as [|[p n] acc IH]; simpl; intros H.
  - repeat constructor. by intros ?%elem_of_nil.
  - apply NoDup_cons in H as [Hp Hacc]. unfold py_eq. case_bool_decide as Hd; simpl.
    + by apply NoDup_cons.
    + apply NoDup_cons. split; [|by apply IH].
      rewrite list_elem_of_In. intros Hin.
      apply count_priority_keys in Hin as [->|Hin]; [congruence|].
      by apply Hp, list_elem_of_In.
Qed.

Lemma count_priority_positive q acc :
  Forall (fun e => (0 < e.2)%nat) acc ->
  Forall (fun e => (0 < e.2)%nat) (count_priority q acc).
Proof.
  induction 1 as [|[p n] acc Hn Hacc IH]; simpl.
  - repeat constructor.
  - destruct (py_eq p q); constructor; simpl in *; try assumption. lia.
Qed.

Lemma count_priority_sum q acc :
  sum_list (map snd (count_priority q acc)) = S (sum_list (map snd acc)).
Proof.
  induction acc as [|[p n] acc IH]; simpl; [reflexivity|].
  destruct (py_eq p q); simpl; [reflexivity|]. rewrite IH. lia.
Qed.

Lemma count_of_count_priority q p acc :
  count_of p (count_priority q acc) =
  (count_of p acc + if decide (q = p) then 1 else 0)%nat.
Proof.
  induction acc as [|[p0 n] acc IH]; simpl; unfold py_eq.
  - case_bool_decide; case_decide; congruence.
  - case_bool_decide as H1; simpl; unfold py_eq.
    + subst p0. case_bool_decide; case_decide; try congruence; lia.
    + case_bool_decide as H2; [|exact IH].
      subst p0. case_decide; [congruence | lia].
Qed.

Lemma count_of_In p n ps :
  NoDup (map fst ps) -> In (p, n) ps -> count_of p ps = n.
Proof.
  induction ps as [|[q m] ps IH]; simpl; [tauto|].
  intros H Hin. apply NoDup_cons in H as [Hq Hps]. unfold py_eq.
  destruct Hin as [[= -> ->]|Hin].
  - by rewrite bool_decide_eq_true_2.
  - case_bool_decide as Hd; [|by apply IH].
    subst q. exfalso. apply Hq. apply list_elem_of_In.
    by apply (in_map fst) in Hin.
Qed.

Lemma count_of_positive p ps :
  (0 < count_of p ps)%nat -> In (p, count_of p ps) ps.
Proof.
  induction ps as [|[q m] ps IH]; simpl; [lia|]. unfold py_eq.
  case_bool_decide as Hd; [subst q; by left | right; by apply IH].
Qed.

Lemma with_priority_cons p q (t : todo) ts :
  t !! "priority" = Some q ->
  with_priority p (t :: ts) =
  ((if decide (q = p) then 1 else 0) + with_priority p ts)%nat.
Proof.
  intros Hq. unfold with_priority. rewrite filter_cons.
  case_decide as H1; case_decide as H2; simpl; try reflexivity; congruence.
Qed.

Lemma priority_breakdown_spec ts acc ps :
  priority_breakdown ts acc = Ok ps ->
  NoDup (map fst acc) -> Forall (fun e => (0 < e.2)%nat) acc ->
  NoDup (map fst ps) /\ Forall (fun e => (0 < e.2)%nat) ps /\
  (forall p, count_of p ps = (count_of p acc + with_priority p ts)%nat) /\
  sum_list (map snd ps) = (sum_list (map snd acc) + length ts)%nat.
Proof.
  revert acc. induction ts as [|t ts IH]; intros acc; simpl.
  - intros [= <-] Hnd Hpos. repeat split; try assumption; intros;
      unfold with_priority; simpl; lia.
  - unfold getitem. destruct (t !! "priority") as [q|] eqn:Hq; simpl;
      [|discriminate].
    intros H Hnd Hpos.
    destruct (IH _ H (count_priority_NoDup q acc Hnd)
                 (count_priority_positive q acc Hpos)) as (H1 & H2 & H3 & H4).
    split; [exact H1|]. split; [exact H2|]. split.
    + intros p. rewrite H3, count_of_count_priority,
        (with_priority_cons p q t ts Hq). lia.
    + rewrite H4, count_priority_sum. lia.
Qed.

Lemma priority_breakdown_counts ts ps :
  priority_breakdown ts [] = Ok ps ->
  NoDup (map fst ps) /\
  (forall p n, In (p, n) ps <-> (0 < n)%nat /\ n = with_priority p ts) /\
  sum_list (map snd ps) = length ts.
Proof.
  intros H.
  destruct (priority_breakdown_spec ts [] ps H) as (Hnd & Hpos & Hc & Hsum);
    [constructor | constructor |].
  split; [exact Hnd|]. split; [|exact Hsum].
  intros p n.
  assert (with_priority p ts = count_of p ps) as -> by (by rewrite Hc).
  split.
  - intros Hin. split.
    + rewrite Forall_forall in Hpos. apply list_elem_of_In in Hin.
      apply (Hpos _ Hin).
    + symmetry. by apply count_of_In.
  - intros [Hn ->]. by apply count_of_positive.
Qed.

Lemma priority_lines_counts ps :
  Forall (fun e => is_str e.1 = true) ps ->
  exists counts : list (string * nat),
    ps = map (fun c => (VStr c.1, c.2)) counts /\
    Forall2 (fun e l => priority_line e = Ok l) ps
            (map (fun c => OutPriorityCount c.1 c.2) counts).
Proof.
  induction 1 as [|[[|z|p] n] ps Hp _ (counts & -> & IH)]; try discriminate.
  - exists []. split; [reflexivity | constructor].
  - exists ((p, n) :: counts). split; [reflexivity|].
    constructor; [reflexivity | exact IH].
Qed.

(** X14: on well-formed tasks the counts that [get_statistics] prints are
    consistent.  The completed and the pending count add up to the total;
    the priority breakdown has one line for each priority that occurs, with
    the number of todos of that priority, and these numbers add up to the
    total. *)
Theorem get_statistics_counts w :
  tasks (todos w) ->
  exists completed pending rate (counts : list (string * nat)),
    get_statistics w =
      (Ok tt, World (todos w) (file w)
         (trace w ++ map Stdout
            ([OutStatsHeader; OutTotal (length (todos w));
              OutCompleted completed; OutPending pending; rate;
              OutPriorityHeader]
             ++ map (fun c => OutPriorityCount c.1 c.2) counts))) /\
    completed = length (filter is_completed (todos w)) /\
    (completed + pending)%nat = length (todos w) /\
    NoDup (map fst counts) /\
    (forall p n, In (p, n) counts <->
                 (0 < n)%nat /\ n = with_priority (VStr p) (todos w)) /\
    sum_list (map snd counts) = length (todos w).
Proof.
  intros Hts.
  set (total := length (todos w)).
  set (completed := length (filter is_completed (todos w))).
  destruct (rate_line_total completed total) as (rate & Hrate & _).
  destruct (priority_breakdown_tasks (todos w) [] Hts) as (ps & Hps & Hstr);
    [constructor|].
  destruct (priority_lines_counts ps Hstr) as (counts & Eps & Hls).
  destruct (priority_breakdown_counts _ _ Hps) as (Hnd & Hin & Hsum).
  exists completed, (total - completed)%nat, rate, counts.
  split; [|split; [reflexivity|split; [|split; [|split]]]].
  - unfold get_statistics, bind at 1, get_todos. unfold bind at 1, lift at 1.
    rewrite (filter_by_tasks "status" "completed" _ Hts) by (simpl; tauto).
    change (filter (field_is "status" (Some "completed")) (todos w))
      with (filter is_completed (todos w)).
    fold total completed. cbv zeta.
    unfold bind, print, lift. rewrite Hrate, Hps.
    rewrite (for_each_print_lines priority_line ps _ _ Hls).
    simpl. repeat rewrite <- app_assoc. reflexivity.
  - pose proof (length_filter is_completed (todos w)). subst total completed. lia.
  - assert (map fst ps = VStr <$> map fst counts) as E.
    { rewrite Eps. clear. induction counts as [|[p n] counts IH];
        [reflexivity|]. simpl. by f_equal. }
    rewrite E in Hnd. by apply (NoDup_fmap_1 VStr) in Hnd.
  - intros p n. rewrite <- Hin, Eps, in_map_iff. split.
    + intros H. exists (p, n). auto.
    + intros ([p' n'] & [= -> ->] & H). exact H.
  - rewrite Eps, map_map in Hsum. exact Hsum.
Qed.

Lemma get_statistics_counts_witness :
  tasks (todos three_todos) /\
  exists completed pending rate (counts : list (string * nat)),
    get_statistics three_todos =
      (Ok tt, World (todos three_todos) (file three_todos)
         (trace three_todos ++ map Stdout
            ([OutStatsHeader; OutTotal (length (todos three_todos));
              OutCompleted completed; OutPending pending; rate;
              OutPriorityHeader]
             ++ map (fun c => OutPriorityCount c.1 c.2) counts))) /\
    completed = length (filter is_completed (todos three_todos)) /\
    (completed + pending)%nat = length (todos three_todos) /\
    NoDup (map fst counts) /\
    (forall p n, In (p, n) counts <->
                 (0 < n)%nat /\ n = with_priority (VStr p) (todos three_todos)) /\
    sum_list (map snd counts) = length (todos three_todos).
Proof.
  assert (tasks (todos three_todos)) as H by (repeat constructor).
  split; [exact H | exact (get_statistics_counts three_todos H)].
Defined.

(** ** Values that the methods do not check *)

Lemma for_each_print_raise {A} (f : A -> result line) (g : A -> line)
    xs y rest e w :
  Forall (fun x => f x = Ok (g x)) xs -> f y = Raise e ->
  for_each (fun x => l <- lift (f x);; print l) (xs ++ y :: rest) w =
  (Raise e, World (todos w) (file w) (trace w ++ map (fun x => Stdout (g x)) xs)).
Proof.
  intros H Hy. revert w. induction H as [|x xs Hx _ IH]; intros w; simpl.
  - unfold bind, lift. rewrite Hy. destruct w. simpl. by rewrite app_nil_r.
  - unfold bind at 1. unfold bind at 1. unfold lift at 1. rewrite Hx.
    unfold print at 1. rewrite IH. simpl. by rewrite <- app_assoc.
Qed.

Lemma list_item_unknown_priority id title description priority now due_date :
  priority <> "high" -> priority <> "medium" -> priority <> "low" ->
  list_item (new_todo id title description priority now due_date)
  = Raise (KeyError (VStr priority)).
Proof.
  intros H1 H2 H3. unfold list_item.
  change (getitem (new_todo id title description priority now due_date) "status")
    with (Ok (A := value) (VStr "pending")).
  change (getitem (new_todo id title description priority now due_date) "priority")
    with (Ok (A := value) (VStr priority)).
  cbn [rbind]. unfold priority_icon, py_eq.
  rewrite !bool_decide_eq_false_2 by congruence. reflexivity.
Qed.

(** X15: [add_todo] stores any priority string, and [list_todos] fails on
    one it has no icon for.  After an add with a priority other than "high",
    "medium" and "low" to a list of well-formed tasks, listing without
    filters prints the header and the earlier todos and then raises
    [KeyError] with that priority; the list and the file are not changed. *)
Theorem list_todos_raises_on_unknown_priority
    now title description priority due_date w :
  tasks (todos w) ->
  priority <> "high" -> priority <> "medium" -> priority <> "low" ->
  let w1 := exec (add_todo now title description priority due_date) w in
  list_todos None None w1 =
  (Raise (KeyError (VStr priority)),
   World (todos w1) (file w1)
     (trace w1 ++ Stdout (OutListHeader (S (length (todos w))))
               :: map (fun t => Stdout (OutListItem t)) (todos w))).
Proof.
  intros Hts H1 H2 H3 w1.
  set (t := new_todo (Z.of_nat (length (todos w)) + 1) title description
                     priority now due_date).
  assert (todos w1 = todos w ++ [t]) as Ew by reflexivity.
  unfold list_todos, bind at 1, get_todos. simpl truthy. cbv iota.
  unfold bind at 1, ret at 1. unfold bind at 1, ret at 1.
  rewrite Ew.
  assert (length (todos w ++ [t]) = S (length (todos w))) as Hlen.
  { rewrite length_app. simpl. lia. }
  destruct (todos w ++ [t]) as [|u us] eqn:E; [discriminate|].
  rewrite Hlen, <- E. unfold bind at 1, print at 1.
  rewrite (for_each_print_raise list_item OutListItem (todos w) t []
             (KeyError (VStr priority))).
  - simpl. rewrite <- app_assoc. reflexivity.
  - eapply Forall_impl; [exact Hts|]. intros x Hx. by apply list_item_task.
  - by apply list_item_unknown_priority.
Qed.

Lemma list_todos_raises_on_unknown_priority_witness :
  tasks (todos one_todo) /\
  list_todos None None
    (exec (add_todo "2024-05-02T08:00:00" "b" "" "urgent" None) one_todo) =
  (Raise (KeyError (VStr "urgent")),
   World (todos (exec (add_todo "2024-05-02T08:00:00" "b" "" "urgent" None)
                      one_todo))
         (file (exec (add_todo "2024-05-02T08:00:00" "b" "" "urgent" None)
                     one_todo))
         (trace (exec (add_todo "2024-05-02T08:00:00" "b" "" "urgent" None)
                      one_todo)
          ++ Stdout (OutListHeader (S (length (todos one_todo))))
             :: map (fun t => Stdout (OutListItem t)) (todos one_todo))).
Proof.
  assert (tasks (todos one_todo)) as H by (repeat constructor).
  split; [exact H|].
  apply (list_todos_raises_on_unknown_priority "2024-05-02T08:00:00" "b" ""
           "urgent" None one_todo H); discriminate.
Defined.

(** ** Dicts with a missing key *)

Lemma find_todo_without_id todo_id l1 (t : todo) l2 i :
  Forall (other_id todo_id) l1 -> t !! "id" = None ->
  find_todo todo_id (l1 ++ t :: l2) i = Raise (KeyError (VStr "id")).
Proof.
  intros H Ht. revert i.
  induction H as [|u l1 [v [Hv Hne]] _ IH]; intros i; simpl.
  - unfold getitem. by rewrite Ht.
  - unfold getitem. rewrite Hv. simpl.
    unfold py_eq. rewrite bool_decide_eq_false_2 by exact Hne. apply IH.
Qed.

(** X16: a stored dict without the key "id" stops every lookup that reaches
    it.  When the todos before it have other ids, [update_todo],
    [delete_todo] and [show_todo] raise [KeyError] for "id" and leave the
    world exactly as it was: nothing is changed, written or printed, even if
    a later todo holds the id. *)
Theorem lookup_raises_on_missing_id now todo_id kwargs l1 t l2 w :
  todos w = l1 ++ t :: l2 ->
  Forall (other_id todo_id) l1 -> t !! "id" = None ->
  update_todo now todo_id kwargs w = (Raise (KeyError (VStr "id")), w) /\
  delete_todo todo_id w = (Raise (KeyError (VStr "id")), w) /\
  show_todo todo_id w = (Raise (KeyError (VStr "id")), w).
Proof.
  intros Hw Hl1 Ht.
  pose proof (find_todo_without_id todo_id l1 t l2 0 Hl1 Ht) as Hf.
  rewrite <- Hw in Hf.
  unfold update_todo, delete_todo, show_todo, bind, get_todos, lift.
  rewrite Hf. auto.
Qed.

Lemma lookup_raises_on_missing_id_witness :
  let w := World (todos one_todo ++ [delete "id" (new_todo 2 "b" "" "low" "" None);
                                     new_todo 2 "c" "" "low" "" None])
                 None [] in
  show_todo 2 w = (Raise (KeyError (VStr "id")), w).
Proof.
  intros w.
  apply (lookup_raises_on_missing_id "" 2 [] (todos one_todo)
           (delete "id" (new_todo 2 "b" "" "low" "" None))
           [new_todo 2 "c" "" "low" "" None] w).
  - reflexivity.
  - repeat constructor. exists (VInt 1). split; [reflexivity | discriminate].
  - reflexivity.
Defined.

(** X17: [delete_todo] reports the title after it has removed the todo and
    written the file.  When the todo it finds has no key "title", the call
    raises [KeyError], and the todo is gone all the same, from the list and
    from the file. *)
Theorem delete_todo_without_title todo_id w i t :
  find_todo todo_id (todos w) 0 = Ok (Some (i, t)) ->
  t !! "title" = None ->
  delete_todo todo_id w =
  (Raise (KeyError (VStr "title")),
   World (delete i (todos w)) (Some (Document (delete i (todos w))))
         (trace w ++ [FileWrite (delete i (todos w))])).
Proof.
  intros Hf Ht. rewrite (delete_todo_present _ _ _ _ Hf).
  unfold getitem. by rewrite Ht.
Qed.

Lemma delete_todo_without_title_witness :
  let t := delete "title" (new_todo 1 "a" "" "low" "" None) in
  let w := World [t] (Some (Document [t])) [] in
  delete_todo 1 w =
  (Raise (KeyError (VStr "title")),
   World (delete 0%nat [t]) (Some (Document (delete 0%nat [t])))
         ([] ++ [FileWrite (delete 0%nat [t])])).
Proof.
  intros t w.
  apply (delete_todo_without_title 1 w 0%nat t); reflexivity.
Defined.

(** ** Adding, then deleting *)

(** X18: deleting the id that an add has just assigned undoes the add.
    When no stored todo holds the id that add is about to assign, an add
    followed by the deletion of that id returns normally and leaves the
    list, and the file, as the list was before the add. *)
Theorem add_todo_then_delete now title description priority due_date w :
  let id := Z.of_nat (length (todos w)) + 1 in
  Forall (other_id id) (todos w) ->
  let w1 := exec (add_todo now title description priority due_date) w in
  let w2 := exec (delete_todo id) w1 in
  outcome (delete_todo id) w1 = Ok tt /\
  todos w2 = todos w /\
  file w2 = Some (Document (todos w)).
Proof.
  intros id Hids w1 w2.
  set (t := new_todo id title description priority now due_date).
  assert (todos w1 = todos w ++ [t]) as Ew by reflexivity.
  assert (find_todo id (todos w1) 0 = Ok (Some (length (todos w), t))) as Hf.
  { rewrite Ew. apply (find_todo_first id (todos w) [] t 0 Hids).
    apply new_todo_id. }
  assert (delete (length (todos w)) (todos w1) = todos w) as Hdel.
  { rewrite Ew, delete_middle. apply app_nil_r. }
  subst w2. unfold outcome, exec.
  rewrite (delete_todo_present _ _ _ _ Hf). rewrite Hdel.
  change (getitem t "title") with (Ok (A := value) (VStr title)).
  auto.
Qed.

Lemma add_todo_then_delete_witness :
  Forall (other_id 2) (todos one_todo) /\
  todos (exec (delete_todo 2)
           (exec (add_todo "2024-05-02T08:00:00" "b" "" "low" None) one_todo))
  = todos one_todo.
Proof.
  assert (Forall (other_id 2) (todos one_todo)) as H.
  { repeat constructor. exists (VInt 1). split; [reflexivity | discriminate]. }
  split; [exact H|].
  apply (add_todo_then_delete "2024-05-02T08:00:00" "b" "" "low" None
           one_todo H).
Defined.

(** ** Writes of the file *)

Lemma written_app evs1 evs2 : written (evs1 ++ evs2) = written evs1 ++ written evs2.
Proof.
  induction evs1 as [|[l|ts] evs1 IH]; simpl; [reflexivity | exact IH |].
  by rewrite IH.
Qed.

Lemma written_prints ls : written (map Stdout ls) = [].
Proof. induction ls as [|l ls IH]; [reflexivity | exact IH]. Qed.

Lemma prints_only_writes_once (m : M unit) : prints_only m -> writes_once m.
Proof.
  intros Hm w. destruct (Hm w) as [ls Hls]. exists (map Stdout ls).
  unfold exec. rewrite Hls. simpl. split; [reflexivity|]. left.
  split; [apply written_prints | auto].
Qed.

Lemma update_todo_writes_once now id kwargs : writes_once (update_todo now id kwargs).
Proof.
  intros w. unfold exec.
  destruct (find_todo id (todos w) 0) as [[[i t]|]|e] eqn:Hf.
  - rewrite (update_todo_present _ _ _ _ _ _ Hf). cbv zeta.
    eexists. simpl. split; [by rewrite <- app_assoc|]. right. auto.
  - rewrite (update_todo_absent _ _ _ _ Hf). eexists. split; [reflexivity|].
    left. auto.
  - unfold update_todo, bind, get_todos, lift. rewrite Hf. exists [].
    simpl. split; [by rewrite app_nil_r|]. left. auto.
Qed.

Lemma delete_todo_writes_once id : writes_once (delete_todo id).
Proof.
  intros w. unfold exec.
  destruct (find_todo id (todos w) 0) as [[[i t]|]|e] eqn:Hf.
  - rewrite (delete_todo_present _ _ _ _ Hf). cbv zeta.
    destruct (getitem t "title"); eexists; simpl;
      (split; [by rewrite <- ?app_assoc|]); right; auto.
  - rewrite (delete_todo_absent _ _ Hf). eexists. split; [reflexivity|].
    left. auto.
  - unfold delete_todo, bind, get_todos, lift. rewrite Hf. exists [].
    simpl. split; [by rewrite app_nil_r|]. left. auto.
Qed.

Lemma dispatch_writes_once now c : writes_once (dispatch now c).
Proof.
  destruct c as [title d p due|s p|id title d p due|id|id|id|q|]; simpl.
  - intros w. eexists. unfold exec. rewrite add_todo_run. simpl.
    split; [by rewrite <- app_assoc|]. right. auto.
  - apply prints_only_writes_once, prints_only_list_todos.
  - destruct (_ ++ _).
    + apply prints_only_writes_once, prints_only_print.
    + apply update_todo_writes_once.
  - apply delete_todo_writes_once.
  - apply update_todo_writes_once.
  - apply prints_only_writes_once, prints_only_show_todo.
  - apply prints_only_writes_once, prints_only_search_todos.
  - apply prints_only_writes_once, prints_only_get_statistics.
Qed.

(** X19: a run writes the data file at most once, at its end state.  For
    every command and every world, the trace grows by effects among which
    either nothing is written, and then the file is the one before the run,
    or exactly one list is written, the list in memory at the end of the
    run, and the file holds that list. *)
Theorem main_writes_at_most_once now c w :
  let w' := exec (main now c) w in
  exists evs,
    trace w' = trace w ++ evs /\
    ((written evs = [] /\ file w' = file w) \/
     (written evs = [todos w'] /\ file w' = Some (Document (todos w')))).
Proof.
  intros w'. subst w'. unfold main, exec, bind. rewrite init_loads.
  set (w0 := World _ _ _).
  destruct (dispatch_writes_once now c w0) as (evs & Htr & H).
  unfold exec in *.
  set (evs0 := match file w with
               | Some (Malformed _) => [Stdout OutErrorReading]
               | _ => []
               end) in *.
  exists (evs0 ++ evs). split.
  - rewrite Htr. subst w0. simpl. by rewrite app_assoc.
  - rewrite written_app.
    assert (written evs0 = []) as -> by (subst evs0; by destruct (file w) as [[]|]).
    simpl. destruct H as [(H1 & _ & H3)|[H1 H2]]; [left | right]; auto.
Qed.
